(** * Chrome Remote Desktop provisioning script: a shallow embedding

    The script of [code.py] is a straight line of shell commands wrapped in
    a boolean-returning helper.  Everything it does is an effect on the host,
    so the embedding is a state-and-exception monad over a record of what the
    process has done so far ([World]), run against a description of how the
    host answers ([Host]). *)

From Stdlib Require Import ZArith NArith List String Ascii Bool Lia.
From Stdlib Require Import DecimalString.
Import ListNotations.

Set Implicit Arguments.

(** ** Python strings *)

(** A Python [str] is a sequence of Unicode code points. *)
Definition pystr := list N.

(** A literal of the source, all of them ASCII. *)
Definition lit (s : string) : pystr :=
  map N_of_ascii (list_ascii_of_string s).

Definition NL : pystr := [10%N].
Definition DQUOTE : pystr := [34%N].

(** [str.isspace] on one code point: the ASCII table of CPython
    (TAB..CR, FS..US, SPACE) and the Unicode white space above it. *)
Definition py_isspace (c : N) : bool :=
  ((9 <=? c) && (c <=? 13) || (28 <=? c) && (c <=? 32)
   || (c =? 133) || (c =? 160) || (c =? 5760)
   || (8192 <=? c) && (c <=? 8202)
   || (c =? 8232) || (c =? 8233) || (c =? 8239) || (c =? 8287)
   || (c =? 12288))%N.

Fixpoint lstrip (s : pystr) : pystr :=
  match s with
  | [] => []
  | c :: t => if py_isspace c then lstrip t else s
  end.

Definition rstrip (s : pystr) : pystr := rev (lstrip (rev s)).

(** [s.strip()] *)
Definition strip (s : pystr) : pystr := rstrip (lstrip s).

(** [str(n)] for an [int]: an optional minus sign and the decimal digits. *)
Definition str_int (z : Z) : pystr :=
  lit (NilZero.string_of_int (Z.to_int z)).

(** [s * n] *)
Definition str_mul (s : pystr) (n : nat) : pystr := List.concat (List.repeat s n).

(** [s == ""], which is also [not s] *)
Definition is_empty (s : pystr) : bool :=
  match s with [] => true | _ => false end.

(** ** The host and the process *)

Inductive level := INFO | WARNING | ERROR.

(** One call of [subprocess.run]. *)
Record call := Call {
  call_command : pystr;
  call_shell : bool;
  call_check : bool
}.

(** What the process has done so far. *)
Record World := mkWorld {
  stderr : list pystr;              (* raw writes to standard error, in order *)
  calls : list call;                (* subprocess.run invocations, in order *)
  log : list (level * pystr);       (* logger records (the logging module
                                       prints them on standard error) *)
  stdout : list pystr;              (* writes to standard output, in order *)
  environ : list (pystr * pystr);   (* assignments to os.environ, latest first *)
  sleeps : nat                      (* calls of time.sleep so far *)
}.

Definition init_world : World := mkWorld [] [] [] [] [] 0.

(** What the operator gives to [input]. *)
Inductive input_outcome :=
| InputLine (s : pystr)
| InputInterrupt       (* Ctrl+C at the prompt *)
| InputEOF.            (* standard input closed *)

(** What happens to a spawned child. *)
Inductive proc_outcome :=
| Exited (returncode : Z) (err : pystr)
    (* the child ran to the end; its captured output decoded as text, [err]
       being the text of its standard error *)
| LaunchError (msg : pystr)
    (* OSError and the like: the child never ran *)
| Garbled (returncode : Z) (msg : pystr)
    (* the child ran to the end, but its captured output is not text in the
       encoding of the locale: UnicodeDecodeError with message [msg] *)
| Interrupted.
    (* Ctrl+C while the child runs *)

Record Host := mkHost {
  stdin_line : input_outcome;
  euid : Z;
  (* the outcome of the n-th subprocess call *)
  spawn : nat -> call -> proc_outcome;
  (* the text of str(CalledProcessError(returncode, cmd)) *)
  cpe_text : pystr -> Z -> pystr;
  (* whether Ctrl+C arrives during the n-th time.sleep *)
  sleep_interrupted : nat -> bool;
  (* whether standard input and standard output are both a terminal *)
  on_terminal : bool
}.

(** Exceptions below [Exception]. *)
Inductive exc_value :=
| CalledProcessError (cmd : pystr) (returncode : Z)
| EOFError
| UnicodeDecodeError (msg : pystr)
| OtherException (msg : pystr).

(** Everything that can be raised: [BaseException]. *)
Inductive exn :=
| KeyboardInterrupt
| SystemExit (code : Z)
| Exception (e : exc_value).

(** The result of a computation.  [Blocked] is the idle loop still
    sleeping when the fuel of the model ran out. *)
Inductive Res (A : Type) :=
| Return (a : A)
| Raise (e : exn)
| Blocked.

Arguments Return {A} a.
Arguments Raise {A} e.
Arguments Blocked {A}.

Definition M (A : Type) := World -> Res A * World.

Definition ret {A} (a : A) : M A := fun w => (Return a, w).

Definition raise {A} (e : exn) : M A := fun w => (Raise e, w).

Definition bind {A B} (m : M A) (k : A -> M B) : M B :=
  fun w =>
    match m w with
    | (Return a, w') => k a w'
    | (Raise e, w') => (Raise e, w')
    | (Blocked, w') => (Blocked, w')
    end.

Declare Scope py_scope.
Delimit Scope py_scope with py.
Notation "x <- m ;; k" := (bind m (fun x => k))
  (at level 61, m at next level, right associativity) : py_scope.
Notation "m ;; k" := (bind m (fun _ => k))
  (at level 61, right associativity) : py_scope.
Open Scope py_scope.

(** [try: m  except ...: handler], the handler choosing what it catches. *)
Definition try_except {A} (m : M A) (handler : exn -> option (M A)) : M A :=
  fun w =>
    match m w with
    | (Raise e, w') =>
        match handler e with
        | Some k => k w'
        | None => (Raise e, w')
        end
    | r => r
    end.

(** [for x in xs: body x] *)
Fixpoint for_each {A} (xs : list A) (body : A -> M unit) : M unit :=
  match xs with
  | [] => ret tt
  | x :: rest => body x ;; for_each rest body
  end.

Section Script.

Variable h : Host.

(** *** Library calls *)

Definition logger (l : level) (msg : pystr) : M unit :=
  fun w => (Return tt,
            mkWorld (stderr w) (calls w) (log w ++ [(l, msg)]) (stdout w) (environ w) (sleeps w)).

Definition logger_info := logger INFO.
Definition logger_warning := logger WARNING.
Definition logger_error := logger ERROR.

Definition write (s : pystr) : M unit :=
  fun w => (Return tt,
            mkWorld (stderr w) (calls w) (log w) (stdout w ++ [s]) (environ w) (sleeps w)).

(** [print(s)] *)
Definition print (s : pystr) : M unit := write (s ++ NL).

(** A raw write to standard error. *)
Definition write_err (s : pystr) : M unit :=
  fun w => (Return tt,
            mkWorld (stderr w ++ [s]) (calls w) (log w) (stdout w) (environ w)
              (sleeps w)).

(** [input(prompt)]: with standard input and standard output on a terminal
    the interpreter reads the line through its console reader, which shows
    the prompt on standard error; otherwise the prompt goes to standard
    output. *)
Definition input (prompt : pystr) : M pystr :=
  (if on_terminal h then write_err prompt else write prompt) ;;
  match stdin_line h with
  | InputLine s => ret s
  | InputInterrupt => raise KeyboardInterrupt
  | InputEOF => raise (Exception EOFError)
  end.

(** [sys.exit(code)] *)
Definition sys_exit {A} (code : Z) : M A := raise (SystemExit code).

(** [os.geteuid()] *)
Definition os_geteuid : M Z := ret (euid h).

(** [os.environ[k] = v] *)
Definition os_environ_set (k v : pystr) : M unit :=
  fun w => (Return tt,
            mkWorld (stderr w) (calls w) (log w) (stdout w) ((k, v) :: environ w) (sleeps w)).

(** [time.sleep(1)] *)
Definition time_sleep : M unit :=
  fun w =>
    let w' := mkWorld (stderr w) (calls w) (log w) (stdout w) (environ w) (S (sleeps w)) in
    if sleep_interrupted h (sleeps w) then (Raise KeyboardInterrupt, w')
    else (Return tt, w').

(** [str(e)] for an exception below [Exception]. *)
Definition str_exc (e : exc_value) : pystr :=
  match e with
  | CalledProcessError cmd rc => cpe_text h cmd rc
  | EOFError => lit "EOF when reading a line"
  | UnicodeDecodeError msg => msg
  | OtherException msg => msg
  end.

Record CompletedProcess := mkCompleted {
  cp_returncode : Z;
  cp_stderr : pystr
}.

(** [subprocess.run(command, shell=..., check=..., capture_output=True,
    text=True)]: the captured output is decoded when the child has ended,
    before the exit status is looked at, and output that cannot be decoded
    raises [UnicodeDecodeError]; with [check] a non-zero exit status is
    raised as [CalledProcessError]. *)
Definition subprocess_run (command : pystr) (shell check : bool)
  : M CompletedProcess :=
  fun w =>
    let c := Call command shell check in
    let w' := mkWorld (stderr w) (calls w ++ [c]) (log w) (stdout w) (environ w) (sleeps w) in
    match spawn h (List.length (calls w)) c with
    | Exited rc err =>
        if check && negb (rc =? 0)%Z
        then (Raise (Exception (CalledProcessError command rc)), w')
        else (Return (mkCompleted rc err), w')
    | LaunchError msg => (Raise (Exception (OtherException msg)), w')
    | Garbled _ msg => (Raise (Exception (UnicodeDecodeError msg)), w')
    | Interrupted => (Raise KeyboardInterrupt, w')
    end.

(** *** [run_command] *)

Definition run_command (command : pystr) (use_shell check_result : bool)
  : M bool :=
  try_except
    (result <- (if use_shell
                then subprocess_run command true check_result
                else subprocess_run command false check_result) ;;
     if negb (cp_returncode result =? 0)%Z && check_result then
       logger_error (lit "Command failed: " ++ command) ;;
       logger_error (lit "Error: " ++ cp_stderr result) ;;
       ret false
     else ret true)
    (fun e =>
       match e with
       | Exception (CalledProcessError c rc) =>
           Some (logger_error (lit "Command failed: " ++ command ++ lit " - "
                               ++ str_exc (CalledProcessError c rc)) ;;
                 ret false)
       | Exception e' =>
           Some (logger_error (lit "Unexpected error running command: "
                               ++ command ++ lit " - " ++ str_exc e') ;;
                 ret false)
       | _ => None
       end).

(** *** Module-level configuration *)

(** The globals the functions read: the token typed by the operator and
    the three configured constants. *)
Record Globals := mkGlobals {
  CRD_SSH_Code : pystr;
  username : pystr;
  password : pystr;
  Pin : Z
}.

Section WithGlobals.

Variable g : Globals.

Definition validate_inputs : M bool :=
  if is_empty (CRD_SSH_Code g) || is_empty (strip (CRD_SSH_Code g)) then
    logger_error (lit "Please enter a valid Chrome Remote Desktop SSH code") ;;
    ret false
  else if (List.length (str_int (Pin g)) <? 6)%nat then
    logger_error (lit "PIN must be at least 6 digits") ;;
    ret false
  else ret true.

(** *** The steps of [CRDSetup] *)

Definition update_system : M unit :=
  logger_info (lit "Updating system packages...") ;;
  _ <- run_command (lit "apt update") true true ;;
  ret tt.

Definition setup_user (user : pystr) : M unit :=
  logger_info (lit "Setting up user: " ++ user) ;;
  _ <- run_command (lit "id " ++ user ++ lit " || useradd -m " ++ user)
         true false ;;
  _ <- run_command (lit "usermod -aG sudo " ++ user) true true ;;
  _ <- run_command (lit "echo '" ++ user ++ lit ":" ++ password g
                    ++ lit "' | chpasswd") true true ;;
  _ <- run_command (lit "sed -i 's/\/bin\/sh/\/bin\/bash/g' /etc/passwd")
         true true ;;
  ret tt.

Definition install_crd_commands : list pystr :=
  [ lit "wget -q https://dl.google.com/linux/direct/chrome-remote-desktop_current_amd64.deb";
    lit "dpkg -i chrome-remote-desktop_current_amd64.deb";
    lit "apt install -f -y" ].

Definition install_crd : M bool :=
  logger_info (lit "Installing Chrome Remote Desktop...") ;;
  for_each install_crd_commands
    (fun cmd =>
       ok <- run_command cmd true false ;;
       if negb ok
       then logger_warning (lit "Command may have failed: " ++ cmd)
       else ret tt) ;;
  logger_info (lit "Chrome Remote Desktop installation completed!") ;;
  ret true.

Definition desktop_commands : list pystr :=
  [ lit "apt install -y xfce4 desktop-base xfce4-terminal";
    lit "apt install -y xscreensaver dbus-x11";
    lit "apt remove -y gnome-terminal";
    lit "service lightdm stop";
    lit "service dbus start" ].

Definition session_cmd : pystr :=
  lit "echo " ++ DQUOTE
  ++ lit "exec /etc/X11/Xsession /usr/bin/xfce4-session" ++ DQUOTE
  ++ lit " > /etc/chrome-remote-desktop-session".

Definition install_desktop_environment : M bool :=
  logger_info (lit "Installing Desktop Environment...") ;;
  os_environ_set (lit "DEBIAN_FRONTEND") (lit "noninteractive") ;;
  for_each desktop_commands
    (fun cmd => _ <- run_command cmd true false ;; ret tt) ;;
  _ <- run_command session_cmd true false ;;
  logger_info (lit "XFCE4 Desktop Environment installed!") ;;
  ret true.

Definition chrome_commands : list pystr :=
  [ lit "wget -q https://dl.google.com/linux/direct/google-chrome-stable_current_amd64.deb";
    lit "dpkg -i google-chrome-stable_current_amd64.deb";
    lit "apt install -f -y" ].

Definition install_google_chrome : M unit :=
  logger_info (lit "Installing Google Chrome...") ;;
  for_each chrome_commands
    (fun cmd => _ <- run_command cmd true false ;; ret tt) ;;
  logger_info (lit "Google Chrome installed!").

Definition install_python : M unit :=
  logger_info (lit "Installing Python and pip...") ;;
  _ <- run_command (lit "apt install -y python3 python3-pip") true false ;;
  logger_info (lit "Python installed!").

Definition selenium_commands : list pystr :=
  [ lit "pip3 install selenium";
    lit "apt install -y chromium-chromedriver" ].

Definition install_selenium_webdriver : M unit :=
  logger_info (lit "Installing Selenium WebDriver...") ;;
  for_each selenium_commands
    (fun cmd => _ <- run_command cmd true false ;; ret tt) ;;
  logger_info (lit "Selenium WebDriver installed!").

Definition install_qbittorrent : M unit :=
  logger_info (lit "Installing qBittorrent...") ;;
  _ <- run_command (lit "apt install -y qbittorrent") true false ;;
  logger_info (lit "qBittorrent installed!").

Definition wallpaper_dir : pystr :=
  lit "/etc/alternatives/desktop-theme/wallpaper/contents/images/".

Definition wallpaper_resolutions : list pystr :=
  [ lit "3200x2000"; lit "3840x2160"; lit "5120x2880" ].

Definition base_url : pystr :=
  lit "https://gitlab.com/chamod12/gcrd_deb_codesandbox.io_rdp/-/raw/main/walls".

Definition change_wallpaper : M unit :=
  logger_info (lit "Setting up wallpapers...") ;;
  _ <- run_command (lit "mkdir -p " ++ wallpaper_dir) true false ;;
  for_each wallpaper_resolutions
    (fun resolution =>
       let url := base_url ++ lit "/" ++ resolution ++ lit ".svg" in
       let output_path := wallpaper_dir ++ resolution ++ lit ".svg" in
       let cmd := lit "curl -s -L -o " ++ output_path ++ lit " " ++ url in
       _ <- run_command cmd true false ;; ret tt) ;;
  logger_info (lit "Wallpapers configured!").

(** [while True: time.sleep(1)], bounded by the fuel of the model. *)
Fixpoint idle_loop (fuel : nat) : M unit :=
  match fuel with
  | O => fun w => (Blocked, w)
  | S fuel' => time_sleep ;; idle_loop fuel'
  end.

Definition finish (fuel : nat) (user : pystr) : M unit :=
  logger_info (lit "Finalizing setup...") ;;
  _ <- run_command (lit "usermod -aG chrome-remote-desktop " ++ user)
         true false ;;
  let crd_command := CRD_SSH_Code g ++ lit " --pin=" ++ str_int (Pin g) in
  _ <- run_command (lit "su - " ++ user ++ lit " -c '" ++ crd_command
                    ++ lit "'") true false ;;
  _ <- run_command (lit "systemctl start chrome-remote-desktop") true false ;;
  print (NL ++ str_mul (lit "=") 60) ;;
  print (lit "CHROME REMOTE DESKTOP SETUP COMPLETE") ;;
  print (str_mul (lit "=") 60) ;;
  print (lit "PIN: " ++ str_int (Pin g)) ;;
  print (lit "Username: " ++ username g) ;;
  print (lit "Password: " ++ password g) ;;
  print (str_mul (lit "=") 60) ;;
  print (NL ++ lit "Setup complete! Chrome Remote Desktop is now running.") ;;
  print (lit "You can now connect using Chrome Remote Desktop.") ;;
  print (NL ++ lit "Press Ctrl+C to exit this script.") ;;
  try_except (idle_loop fuel)
    (fun e =>
       match e with
       | KeyboardInterrupt =>
           Some (logger_info (lit "Script terminated by user") ;;
                 print (NL ++ lit "Exiting..."))
       | _ => None
       end).

(** [CRDSetup.__init__] *)
Definition CRDSetup (fuel : nat) (user : pystr) : M unit :=
  logger_info (lit "Starting Chrome Remote Desktop setup...") ;;
  update_system ;;
  setup_user user ;;
  crd_ok <- install_crd ;;
  if negb crd_ok then
    logger_error (lit "Failed to install Chrome Remote Desktop")
  else
    desktop_ok <- install_desktop_environment ;;
    if negb desktop_ok then
      logger_error (lit "Failed to install desktop environment")
    else
      install_google_chrome ;;
      install_python ;;
      install_selenium_webdriver ;;
      install_qbittorrent ;;
      change_wallpaper ;;
      finish fuel user.

Definition main (fuel : nat) : M unit :=
  try_except
    (uid <- os_geteuid ;;
     (if negb (uid =? 0)%Z then
        logger_error (lit "This script must be run as root") ;;
        sys_exit 1
      else ret tt) ;;
     CRDSetup fuel (username g))
    (fun e =>
       match e with
       | KeyboardInterrupt =>
           Some (logger_info (lit "Setup cancelled by user") ;; sys_exit 1)
       | Exception e' =>
           Some (logger_error (lit "An unexpected error occurred: "
                               ++ str_exc e') ;;
                 sys_exit 1)
       | SystemExit _ => None
       end).

End WithGlobals.

(** *** The module body, top to bottom *)

(** The script with its three configured constants as parameters. *)
Definition script_with (user pass : pystr) (pin : Z) (fuel : nat) : M unit :=
  code <- try_except
            (s <- input (lit "Google CRD SSH Code: ") ;; ret (strip s))
            (fun e =>
               match e with
               | KeyboardInterrupt =>
                   Some (print (NL ++ lit "Operation cancelled by user") ;;
                         sys_exit 1)
               | _ => None
               end) ;;
  let g := mkGlobals code user pass pin in
  valid <- validate_inputs g ;;
  (if negb valid then sys_exit 1 else ret tt) ;;
  main g fuel.

(** The script as the source configures it. *)
Definition script : nat -> M unit :=
  script_with (lit "user") (lit "root") 123456.

End Script.

(** ** The interpreter around the script *)

Inductive outcome :=
| ExitCode (code : Z)
| Running.     (* still in the idle loop *)

(** The exit status [python3 code.py] ends with: 0 when the module body
    returns, the argument of [sys.exit], 1 after a traceback, 130 after an
    interrupt nobody caught. *)
Definition exit_status (r : Res unit) : outcome :=
  match r with
  | Return _ => ExitCode 0
  | Raise (SystemExit c) => ExitCode c
  | Raise (Exception _) => ExitCode 1
  | Raise KeyboardInterrupt => ExitCode 130
  | Blocked => Running
  end.

Definition python (m : M unit) : outcome * World :=
  let (r, w) := m init_world in (exit_status r, w).

(** A run of the script on host [h] with configuration [(user, pass, pin)]. *)
Definition run_with (h : Host) (user pass : pystr) (pin : Z) (fuel : nat)
  : outcome * World :=
  python (script_with h user pass pin fuel).

Definition run (h : Host) (fuel : nat) : outcome * World :=
  python (script h fuel).

(** ** Vocabulary of the statements *)

(** Empty or white space only: what [s.strip() == ""] tests. *)
Definition blank (s : pystr) : bool := forallb py_isspace s.

Definition is_interrupted (o : proc_outcome) : bool :=
  match o with Interrupted => true | _ => false end.

(** Does Ctrl+C hit one of the calls [cs], made from call number [n] on? *)
Fixpoint interrupted_in (h : Host) (n : nat) (cs : list call) : bool :=
  match cs with
  | [] => false
  | c :: rest => is_interrupted (spawn h n c) || interrupted_in h (S n) rest
  end.

(** The calls of [cs] that are made: all of them up to and including the
    first one Ctrl+C hits. *)
Fixpoint executed (h : Host) (n : nat) (cs : list call) : list call :=
  match cs with
  | [] => []
  | c :: rest =>
      c :: (if is_interrupted (spawn h n c) then [] else executed h (S n) rest)
  end.

(** Does Ctrl+C arrive within the first [fuel] sleeps made from sleep
    number [n] on? *)
Definition woken (h : Host) (n fuel : nat) : bool :=
  existsb (sleep_interrupted h) (seq n fuel).

(** A shell call of the pipeline. *)
Definition sh (check : bool) (cmd : pystr) : call := Call cmd true check.

Section Expected.

Variable g : Globals.
Variable user : pystr.

Definition update_system_calls : list call := [ sh true (lit "apt update") ].

Definition setup_user_calls : list call :=
  [ sh false (lit "id " ++ user ++ lit " || useradd -m " ++ user);
    sh true (lit "usermod -aG sudo " ++ user);
    sh true (lit "echo '" ++ user ++ lit ":" ++ password g ++ lit "' | chpasswd");
    sh true (lit "sed -i 's/\/bin\/sh/\/bin\/bash/g' /etc/passwd") ].

Definition install_crd_calls : list call := map (sh false) install_crd_commands.

Definition install_desktop_environment_calls : list call :=
  map (sh false) desktop_commands ++ [ sh false session_cmd ].

Definition install_google_chrome_calls : list call :=
  map (sh false) chrome_commands.

Definition install_python_calls : list call :=
  [ sh false (lit "apt install -y python3 python3-pip") ].

Definition install_selenium_webdriver_calls : list call :=
  map (sh false) selenium_commands.

Definition install_qbittorrent_calls : list call :=
  [ sh false (lit "apt install -y qbittorrent") ].

Definition change_wallpaper_calls : list call :=
  sh false (lit "mkdir -p " ++ wallpaper_dir)
  :: map (fun resolution =>
            sh false (lit "curl -s -L -o " ++ (wallpaper_dir ++ resolution ++ lit ".svg")
                      ++ lit " " ++ (base_url ++ lit "/" ++ resolution ++ lit ".svg")))
       wallpaper_resolutions.

Definition finish_calls : list call :=
  [ sh false (lit "usermod -aG chrome-remote-desktop " ++ user);
    sh false (lit "su - " ++ user ++ lit " -c '"
              ++ (CRD_SSH_Code g ++ lit " --pin=" ++ str_int (Pin g)) ++ lit "'");
    sh false (lit "systemctl start chrome-remote-desktop") ].

(** The calls before the first load-bearing step. *)
Definition preparation_calls : list call :=
  update_system_calls ++ setup_user_calls.

(** The calls of the steps after the two load-bearing ones. *)
Definition later_calls : list call :=
  install_google_chrome_calls ++ install_python_calls
  ++ install_selenium_webdriver_calls ++ install_qbittorrent_calls
  ++ change_wallpaper_calls ++ finish_calls.

(** Every call of the pipeline, in the order of the source. *)
Definition pipeline_calls : list call :=
  preparation_calls ++ install_crd_calls
  ++ install_desktop_environment_calls ++ later_calls.

(** The block [finish] prints before it waits. *)
Definition summary : list pystr :=
  [ (NL ++ str_mul (lit "=") 60) ++ NL;
    lit "CHROME REMOTE DESKTOP SETUP COMPLETE" ++ NL;
    str_mul (lit "=") 60 ++ NL;
    (lit "PIN: " ++ str_int (Pin g)) ++ NL;
    (lit "Username: " ++ username g) ++ NL;
    (lit "Password: " ++ password g) ++ NL;
    str_mul (lit "=") 60 ++ NL;
    (NL ++ lit "Setup complete! Chrome Remote Desktop is now running.") ++ NL;
    lit "You can now connect using Chrome Remote Desktop." ++ NL;
    (NL ++ lit "Press Ctrl+C to exit this script.") ++ NL ].

End Expected.

Definition prompt : pystr := lit "Google CRD SSH Code: ".

(** What [input] puts on standard output: the prompt, unless the script
    runs on a terminal, where the prompt is shown on standard error. *)
Definition prompt_on_stdout (h : Host) : list pystr :=
  if on_terminal h then [] else [prompt].

Definition farewell : pystr := (NL ++ lit "Exiting...") ++ NL.

(** The token the script keeps: the stripped line, when there is one. *)
Definition token (h : Host) : pystr :=
  match stdin_line h with
  | InputLine s => strip s
  | _ => []
  end.

Definition globals_of (h : Host) (user pass : pystr) (pin : Z) : Globals :=
  mkGlobals (token h) user pass pin.

(** The runs the script turns down before it starts the setup: no line
    read, a blank token, a short PIN, or no superuser rights. *)
Definition refused (h : Host) (pin : Z) : bool :=
  match stdin_line h with
  | InputLine s =>
      blank s || (List.length (str_int pin) <? 6)%nat || negb (euid h =? 0)%Z
  | _ => true
  end.

(** [follows h m cs P]: from any world, [m] makes the calls [cs] in order
    until Ctrl+C hits one of them, writes nothing to standard output, does
    not sleep, only adds to the log, and either is cut short by that Ctrl+C
    or returns a value satisfying [P].  Failing commands play no part. *)
Definition follows (h : Host) {A} (m : M A) (cs : list call) (P : A -> Prop) : Prop :=
  forall w, exists r w',
    m w = (r, w')
    /\ calls w' = calls w ++ executed h (List.length (calls w)) cs
    /\ stdout w' = stdout w
    /\ sleeps w' = sleeps w
    /\ (exists l, log w' = log w ++ l)
    /\ if interrupted_in h (List.length (calls w)) cs
       then r = Raise KeyboardInterrupt
       else exists a, r = Return a /\ P a.

(** [ends outs m cs]: [m] makes the calls [cs] until Ctrl+C hits one of
    them; if none is hit it prints [outs] and waits, returning when Ctrl+C
    ends the wait. *)
Definition ends (h : Host) (fuel : nat) (outs : list pystr) (m : M unit) (cs : list call) : Prop :=
  forall w, exists r w',
    m w = (r, w')
    /\ calls w' = calls w ++ executed h (List.length (calls w)) cs
    /\ if interrupted_in h (List.length (calls w)) cs
       then r = Raise KeyboardInterrupt /\ stdout w' = stdout w
       else r = (if woken h (sleeps w) fuel then Return tt else Blocked)
            /\ stdout w' = stdout w ++ outs
                           ++ (if woken h (sleeps w) fuel then [farewell] else []).

(** Two hosts that differ at most in which commands fail and how: the same
    line typed, the same uid, Ctrl+C at the same commands and sleeps. *)
Definition same_but_failures (h1 h2 : Host) : Prop :=
  stdin_line h1 = stdin_line h2
  /\ euid h1 = euid h2
  /\ (forall n, sleep_interrupted h1 n = sleep_interrupted h2 n)
  /\ (forall n c, is_interrupted (spawn h1 n c) = is_interrupted (spawn h2 n c)).

(** [P] holds on the [n] integers from [z] upwards. *)
Fixpoint all_from (P : Z -> bool) (z : Z) (n : nat) : bool :=
  match n with
  | O => true
  | S n' => P z && all_from P (z + 1) n'
  end.

(** ** Hosts used as examples *)

(** Every command succeeds; Ctrl+C comes during the first sleep. *)
Definition calm_host (line : input_outcome) (uid : Z) : Host :=
  mkHost line uid (fun _ _ => Exited 0 []) (fun _ _ => []) (fun _ => true) true.

(** Ctrl+C while the first command runs. *)
Definition impatient_host : Host :=
  mkHost (InputLine (lit "crd-code-abc")) 0 (fun _ _ => Interrupted)
    (fun _ _ => []) (fun _ => true) true.

(** Every command of the two load-bearing steps (calls 5 to 13) fails: no
    process can be started for the first download, the output of the first
    package command of the desktop step does not decode, the others exit
    with status 1. *)
Definition broken_install_host : Host :=
  mkHost (InputLine (lit "crd-code-abc")) 0
    (fun n _ =>
       if (n =? 5)%nat then LaunchError (lit "[Errno 12] Cannot allocate memory")
       else if (n =? 8)%nat
       then Garbled 100 (lit "'utf-8' codec can't decode byte 0xe9 in position 12: invalid continuation byte")
       else if (5 <? n)%nat && (n <? 14)%nat then Exited 1 (lit "E: failed")
       else Exited 0 [])
    (fun _ _ => []) (fun _ => true) true.

(** Every command of the best-effort steps (calls 14 to 24) fails. *)
Definition flaky_host : Host :=
  mkHost (InputLine (lit "crd-code-abc")) 0
    (fun n _ =>
       if (n =? 22)%nat then LaunchError (lit "[Errno 12] Cannot allocate memory")
       else if (13 <? n)%nat && (n <? 25)%nat then Exited 1 (lit "E: failed")
       else Exited 0 [])
    (fun _ _ => []) (fun _ => true) true.

(** Every child runs to the end with status 0, but what it printed is not
    text in the encoding of the locale. *)
Definition garbling_host : Host :=
  mkHost (InputLine (lit "crd-code-abc")) 0
    (fun _ _ =>
       Garbled 0 (lit "'utf-8' codec can't decode byte 0xff in position 0: invalid start byte"))
    (fun _ _ => []) (fun _ => true) true.

(** ** Vocabulary of the further properties *)

(** [s.startswith(p)] *)
Fixpoint starts_with (p s : pystr) : bool :=
  match p with
  | [] => true
  | a :: p' =>
      match s with
      | [] => false
      | b :: s' => (a =? b)%N && starts_with p' s'
      end
  end.

Fixpoint pystr_eqb (a b : pystr) : bool :=
  match a, b with
  | [], [] => true
  | x :: a', y :: b' => (x =? y)%N && pystr_eqb a' b'
  | _, _ => false
  end.

Definition level_eqb (a b : level) : bool :=
  match a, b with
  | INFO, INFO | WARNING, WARNING | ERROR, ERROR => true
  | _, _ => false
  end.

(** The records a run can log: the level, the text, and whether the text
    is followed by something that varies (a command, a user name, the text
    of an exception). *)
Definition log_templates : list (level * pystr * bool) :=
  [ (ERROR, lit "Please enter a valid Chrome Remote Desktop SSH code", false);
    (ERROR, lit "PIN must be at least 6 digits", false);
    (ERROR, lit "Command failed: ", true);
    (ERROR, lit "Unexpected error running command: ", true);
    (INFO, lit "Starting Chrome Remote Desktop setup...", false);
    (INFO, lit "Updating system packages...", false);
    (INFO, lit "Setting up user: ", true);
    (INFO, lit "Installing Chrome Remote Desktop...", false);
    (WARNING, lit "Command may have failed: ", true);
    (INFO, lit "Chrome Remote Desktop installation completed!", false);
    (INFO, lit "Installing Desktop Environment...", false);
    (INFO, lit "XFCE4 Desktop Environment installed!", false);
    (INFO, lit "Installing Google Chrome...", false);
    (INFO, lit "Google Chrome installed!", false);
    (INFO, lit "Installing Python and pip...", false);
    (INFO, lit "Python installed!", false);
    (INFO, lit "Installing Selenium WebDriver...", false);
    (INFO, lit "Selenium WebDriver installed!", false);
    (INFO, lit "Installing qBittorrent...", false);
    (INFO, lit "qBittorrent installed!", false);
    (INFO, lit "Setting up wallpapers...", false);
    (INFO, lit "Wallpapers configured!", false);
    (INFO, lit "Finalizing setup...", false);
    (INFO, lit "Script terminated by user", false);
    (ERROR, lit "This script must be run as root", false);
    (INFO, lit "Setup cancelled by user", false) ].

Definition matches_template (r : level * pystr) (t : level * pystr * bool) : bool :=
  let '(l, p, more) := t in
  level_eqb l (fst r)
  && (if more then starts_with p (snd r) else pystr_eqb p (snd r)).

Definition known_record (r : level * pystr) : bool :=
  existsb (matches_template r) log_templates.

(** The one assignment to [os.environ] in the source. *)
Definition noninteractive_frontend : pystr * pystr :=
  (lit "DEBIAN_FRONTEND", lit "noninteractive").

(** From [w] to [w'] the process has only added: known records to the
    log, the one setting to the environment, shell calls to the calls,
    writes to standard output, sleeps. *)
Definition advances (w w' : World) : Prop :=
  (exists l, log w' = log w ++ l /\ forallb known_record l = true)
  /\ (exists l, environ w' = l ++ environ w
                /\ Forall (eq noninteractive_frontend) l)
  /\ (exists l, calls w' = calls w ++ l /\ forallb call_shell l = true)
  /\ (exists l, stdout w' = stdout w ++ l)
  /\ (sleeps w <= sleeps w')%nat.

(** [holds m Q E]: from any world [m] only advances, a value it returns
    satisfies [Q] and an exception it raises satisfies [E]. *)
Definition holds {A} (m : M A) (Q : A -> Prop) (E : exn -> Prop) : Prop :=
  forall w,
    advances w (snd (m w))
    /\ match fst (m w) with
       | Return a => Q a
       | Raise e => E e
       | Blocked => True
       end.

(** The host [h] with the stderr text emptied for every child that ran to
    the end with output that decoded; the other outcomes are kept. *)
Definition erase_stderr (h : Host) : Host :=
  mkHost (stdin_line h) (euid h)
    (fun n c =>
       match spawn h n c with
       | Exited rc _ => Exited rc []
       | o => o
       end)
    (cpe_text h) (sleep_interrupted h) (on_terminal h).

(** What [print] writes when Ctrl+C comes at the prompt. *)
Definition cancelled : pystr := (NL ++ lit "Operation cancelled by user") ++ NL.

(** The text of the exception that [subprocess.run] raises without
    [check], if it raises one below [Exception]: the child could not be
    started, or its output did not decode. *)
Definition raised_text (o : proc_outcome) : option pystr :=
  match o with
  | LaunchError msg => Some msg
  | Garbled _ msg => Some msg
  | Exited _ _ => None
  | Interrupted => None
  end.

(** The records the loop of [install_crd] logs for the commands [cmds],
    run as calls [n], [n+1], ...: two for a command whose run raised an
    exception, none for any other. *)
Fixpoint crd_loop_records (h : Host) (n : nat) (cmds : list pystr)
  : list (level * pystr) :=
  match cmds with
  | [] => []
  | cmd :: rest =>
      match raised_text (spawn h n (sh false cmd)) with
      | Some msg =>
          [ (ERROR, lit "Unexpected error running command: " ++ cmd
                    ++ lit " - " ++ msg);
            (WARNING, lit "Command may have failed: " ++ cmd) ]
      | None => []
      end ++ crd_loop_records h (S n) rest
  end.

(** * Proofs *)

Arguments lit : simpl never.
Arguments str_int : simpl never.
Arguments str_mul : simpl never.
Arguments strip : simpl never.

(** ** Strings *)

Lemma lstrip_blank (s : pystr) : blank s = true -> lstrip s = [].
Proof.
  unfold blank. induction s as [|c t IH]; simpl; [reflexivity|].
  intros H. apply andb_true_iff in H as [Hc Ht]. rewrite Hc. auto.
Qed.

Lemma strip_blank (s : pystr) : blank s = true -> strip s = [].
Proof.
  intros H. unfold strip. rewrite (lstrip_blank s H). reflexivity.
Qed.

Lemma lstrip_keeps (c : N) (s : pystr) :
  In c s -> py_isspace c = false -> In c (lstrip s).
Proof.
  intros Hin Hc. induction s as [|a t IH]; simpl in *; [contradiction|].
  destruct (py_isspace a) eqn:Ha.
  - destruct Hin as [->|Hin]; [congruence | auto].
  - exact Hin.
Qed.

Lemma strip_keeps (c : N) (s : pystr) :
  In c s -> py_isspace c = false -> In c (strip s).
Proof.
  intros Hin Hc. unfold strip, rstrip.
  apply -> in_rev. apply lstrip_keeps; [|assumption].
  apply -> in_rev. apply lstrip_keeps; assumption.
Qed.

Lemma not_blank_inv (s : pystr) :
  blank s = false -> exists c, In c s /\ py_isspace c = false.
Proof.
  unfold blank. induction s as [|a t IH]; simpl; [discriminate|].
  destruct (py_isspace a) eqn:Ha; simpl; intros H.
  - destruct (IH H) as (c & Hin & Hc). exists c. auto.
  - exists a. auto.
Qed.

Lemma strip_not_blank (s : pystr) :
  blank s = false ->
  is_empty (strip s) = false /\ is_empty (strip (strip s)) = false.
Proof.
  intros H. destruct (not_blank_inv s H) as (c & Hin & Hc).
  pose proof (strip_keeps c s Hin Hc) as H1.
  pose proof (strip_keeps c (strip s) H1 Hc) as H2.
  split.
  - destruct (strip s); [contradiction | reflexivity].
  - destruct (strip (strip s)); [contradiction | reflexivity].
Qed.

(** ** A specification for straight-line steps *)

Section Follows.

Variable h : Host.

Lemma interrupted_in_app (n : nat) (cs1 cs2 : list call) :
  interrupted_in h n (cs1 ++ cs2)
  = interrupted_in h n cs1 || interrupted_in h (List.length cs1 + n) cs2.
Proof.
  revert n. induction cs1 as [|c r IH]; intros n; simpl; [reflexivity|].
  rewrite IH, orb_assoc. do 2 f_equal. lia.
Qed.

Lemma executed_all (n : nat) (cs : list call) :
  interrupted_in h n cs = false -> executed h n cs = cs.
Proof.
  revert n. induction cs as [|c r IH]; intros n; simpl; [reflexivity|].
  intros H. apply orb_false_iff in H as [H1 H2]. rewrite H1, IH; auto.
Qed.

Lemma executed_app (n : nat) (cs1 cs2 : list call) :
  executed h n (cs1 ++ cs2)
  = if interrupted_in h n cs1 then executed h n cs1
    else cs1 ++ executed h (List.length cs1 + n) cs2.
Proof.
  revert n. induction cs1 as [|c r IH]; intros n; simpl; [reflexivity|].
  destruct (is_interrupted (spawn h n c)); simpl; [reflexivity|].
  rewrite IH. destruct (interrupted_in h (S n) r); [reflexivity|].
  do 3 f_equal. lia.
Qed.


Lemma follows_ret {A} (a : A) : follows h (ret a) [] (eq a).
Proof.
  intros w. exists (Return a), w. simpl. rewrite !app_nil_r.
  repeat split; eauto. exists []. now rewrite app_nil_r.
Qed.

Lemma follows_weaken {A} (m : M A) cs (P Q : A -> Prop) :
  follows h m cs P -> (forall a, P a -> Q a) -> follows h m cs Q.
Proof.
  intros Hm HPQ w. destruct (Hm w) as (r & w' & E & Hc & Ho & Hs & Hl & Hr).
  exists r, w'. repeat split; auto.
  destruct (interrupted_in h _ cs); [assumption|].
  destruct Hr as (a & -> & Ha). eauto.
Qed.

Lemma follows_logger (l : level) (msg : pystr) :
  follows h (logger l msg) [] (fun _ => True).
Proof.
  intros w. eexists _, _. split; [reflexivity|]. simpl. rewrite app_nil_r.
  repeat split; eauto.
Qed.

Lemma follows_os_environ_set (k v : pystr) :
  follows h (os_environ_set k v) [] (fun _ => True).
Proof.
  intros w. eexists _, _. split; [reflexivity|]. simpl. rewrite app_nil_r.
  repeat split; eauto. exists []. now rewrite app_nil_r.
Qed.

Lemma follows_bind {A B} (m : M A) (k : A -> M B) cs1 cs2 P Q :
  follows h m cs1 P ->
  (forall a, P a -> follows h (k a) cs2 Q) ->
  follows h (bind m k) (cs1 ++ cs2) Q.
Proof.
  intros Hm Hk w. unfold bind.
  destruct (Hm w) as (r & w1 & E & Hc & Ho & Hs & (l1 & Hl) & Hr).
  rewrite E, interrupted_in_app, executed_app.
  destruct (interrupted_in h (List.length (calls w)) cs1) eqn:Hi.
  - subst r. exists (Raise KeyboardInterrupt), w1. simpl. repeat split; eauto.
  - destruct Hr as (a & -> & Ha). rewrite (executed_all _ _ Hi) in Hc.
    destruct (Hk a Ha w1) as (r2 & w2 & E2 & Hc2 & Ho2 & Hs2 & (l2 & Hl2) & Hr2).
    assert (Hlen : List.length (calls w1) = (List.length cs1 + List.length (calls w))%nat)
      by (rewrite Hc, length_app; lia).
    rewrite Hlen in *. exists r2, w2. simpl. repeat split.
    + exact E2.
    + rewrite Hc2, Hc, app_assoc. reflexivity.
    + congruence.
    + congruence.
    + exists (l1 ++ l2). rewrite Hl2, Hl, app_assoc. reflexivity.
    + exact Hr2.
Qed.

Lemma follows_then {A B} (m : M A) (k : M B) cs1 cs2 P Q :
  follows h m cs1 P -> follows h k cs2 Q ->
  follows h (bind m (fun _ => k)) (cs1 ++ cs2) Q.
Proof. intros Hm Hk. eapply follows_bind; eauto. Qed.

(** What one call of [run_command] does, in full. *)
Lemma run_command_eq (command : pystr) (use_shell check_result : bool) (w : World) :
  let c := Call command use_shell check_result in
  let made l := mkWorld (stderr w) (calls w ++ [c]) (log w ++ l) (stdout w) (environ w) (sleeps w) in
  run_command h command use_shell check_result w
  = match spawn h (List.length (calls w)) c with
    | Exited rc err =>
        if check_result && negb (rc =? 0)%Z
        then (Return false,
              made [(ERROR, lit "Command failed: " ++ command ++ lit " - "
                            ++ cpe_text h command rc)])
        else (Return true, made [])
    | LaunchError msg =>
        (Return false,
         made [(ERROR, lit "Unexpected error running command: " ++ command
                       ++ lit " - " ++ msg)])
    | Garbled _ msg =>
        (Return false,
         made [(ERROR, lit "Unexpected error running command: " ++ command
                       ++ lit " - " ++ msg)])
    | Interrupted => (Raise KeyboardInterrupt, made [])
    end.
Proof.
  unfold run_command, try_except, bind, subprocess_run.
  destruct use_shell; simpl;
    (destruct (spawn h (List.length (calls w)) _) as [rc err|msg|rc msg|]; simpl;
     [ destruct check_result; simpl;
       [ destruct (rc =? 0)%Z eqn:Hrc; simpl; [rewrite ?Hrc|]; simpl;
         rewrite ?app_nil_r; reflexivity
       | rewrite ?andb_false_r; simpl; rewrite ?app_nil_r; reflexivity ]
     | reflexivity
     | reflexivity
     | rewrite ?app_nil_r; reflexivity ]).
Qed.

Lemma follows_run_command (command : pystr) (use_shell check_result : bool) :
  follows h (run_command h command use_shell check_result)
    [Call command use_shell check_result] (fun _ => True).
Proof.
  intros w. rewrite run_command_eq. simpl.
  destruct (spawn h (List.length (calls w)) _) as [rc err|msg|rc msg|]; simpl.
  - destruct (check_result && negb (rc =? 0)%Z);
      eexists _, _; (split; [reflexivity|]); simpl; repeat split; eauto.
  - eexists _, _; (split; [reflexivity|]); simpl; repeat split; eauto.
  - eexists _, _; (split; [reflexivity|]); simpl; repeat split; eauto.
  - eexists _, _; (split; [reflexivity|]); simpl; repeat split; eauto.
Qed.

Lemma follows_for_each {A} (xs : list A) (body : A -> M unit) (f : A -> call) :
  (forall x, follows h (body x) [f x] (fun _ => True)) ->
  follows h (for_each xs body) (map f xs) (fun _ => True).
Proof.
  intros Hb. induction xs as [|x rest IH]; simpl.
  - eapply follows_weaken; [apply follows_ret | auto].
  - change (f x :: map f rest) with ([f x] ++ map f rest).
    eapply follows_then; eauto.
Qed.

End Follows.

(** ** The steps, one by one *)

Section Steps.

Variable h : Host.
Variable g : Globals.

Lemma follows_conseq {A} (m : M A) cs cs' (P Q : A -> Prop) :
  follows h m cs P -> cs = cs' -> (forall a, P a -> Q a) -> follows h m cs' Q.
Proof. intros Hm <- HPQ. eapply follows_weaken; eauto. Qed.

Ltac chain :=
  repeat first
    [ apply follows_logger
    | apply follows_os_environ_set
    | apply follows_run_command
    | apply follows_ret
    | eapply follows_bind; [ | intros ? _ ] ].

Ltac straight := eapply follows_conseq; [ chain | reflexivity | auto ].

Lemma follows_for_each_run (xs : list pystr) :
  follows h (for_each xs (fun cmd => _ <- run_command h cmd true false ;; ret tt))
    (map (sh false) xs) (fun _ => True).
Proof. apply follows_for_each. intros x. straight. Qed.

Lemma update_system_follows :
  follows h (update_system h) update_system_calls (fun _ => True).
Proof. unfold update_system, logger_info. straight. Qed.

Lemma setup_user_follows (user : pystr) :
  follows h (setup_user h g user) (setup_user_calls g user) (fun _ => True).
Proof. unfold setup_user, logger_info. straight. Qed.

Lemma install_crd_follows :
  follows h (install_crd h) install_crd_calls (eq true).
Proof.
  unfold install_crd, logger_info.
  eapply follows_conseq with (cs := [] ++ install_crd_calls ++ [] ++ []).
  - eapply follows_bind; [apply follows_logger | intros ? _].
    eapply follows_bind; [ | intros ? _ ].
    + apply follows_for_each with (f := sh false). intros cmd.
      eapply follows_conseq with (cs := [sh false cmd] ++ []) (Q := fun _ => True).
      * eapply follows_bind; [apply follows_run_command | intros ok _].
        destruct ok; simpl.
        -- eapply follows_weaken; [apply follows_ret | exact (fun _ _ => I)].
        -- apply follows_logger.
      * reflexivity.
      * auto.
    + eapply follows_bind; [apply follows_logger | intros ? _; apply follows_ret].
  - unfold install_crd_calls. now rewrite !app_nil_r.
  - auto.
Qed.

Lemma install_desktop_environment_follows :
  follows h (install_desktop_environment h) install_desktop_environment_calls
    (eq true).
Proof.
  unfold install_desktop_environment, logger_info.
  eapply follows_conseq
    with (cs := [] ++ [] ++ map (sh false) desktop_commands
                ++ [sh false session_cmd] ++ [] ++ []).
  - eapply follows_bind; [apply follows_logger | intros ? _].
    eapply follows_bind; [apply follows_os_environ_set | intros ? _].
    eapply follows_bind; [apply follows_for_each_run | intros ? _].
    eapply follows_bind; [apply follows_run_command | intros ? _].
    eapply follows_bind; [apply follows_logger | intros ? _; apply follows_ret].
  - reflexivity.
  - auto.
Qed.

Lemma install_google_chrome_follows :
  follows h (install_google_chrome h) install_google_chrome_calls (fun _ => True).
Proof.
  unfold install_google_chrome, logger_info.
  eapply follows_conseq with (cs := [] ++ install_google_chrome_calls ++ []).
  - eapply follows_bind; [apply follows_logger | intros ? _].
    eapply follows_bind; [apply follows_for_each_run | intros ? _].
    apply follows_logger.
  - now rewrite !app_nil_r.
  - auto.
Qed.

Lemma install_python_follows :
  follows h (install_python h) install_python_calls (fun _ => True).
Proof. unfold install_python, logger_info. straight. Qed.

Lemma install_selenium_webdriver_follows :
  follows h (install_selenium_webdriver h) install_selenium_webdriver_calls
    (fun _ => True).
Proof.
  unfold install_selenium_webdriver, logger_info.
  eapply follows_conseq with (cs := [] ++ install_selenium_webdriver_calls ++ []).
  - eapply follows_bind; [apply follows_logger | intros ? _].
    eapply follows_bind; [apply follows_for_each_run | intros ? _].
    apply follows_logger.
  - now rewrite !app_nil_r.
  - auto.
Qed.

Lemma install_qbittorrent_follows :
  follows h (install_qbittorrent h) install_qbittorrent_calls (fun _ => True).
Proof. unfold install_qbittorrent, logger_info. straight. Qed.

Lemma change_wallpaper_follows :
  follows h (change_wallpaper h) change_wallpaper_calls (fun _ => True).
Proof.
  unfold change_wallpaper, logger_info.
  eapply follows_conseq
    with (cs := [] ++ [sh false (lit "mkdir -p " ++ wallpaper_dir)]
                ++ tl change_wallpaper_calls ++ []).
  - eapply follows_bind; [apply follows_logger | intros ? _].
    eapply follows_bind; [apply follows_run_command | intros ? _].
    eapply follows_bind; [ | intros ? _; apply follows_logger ].
    unfold change_wallpaper_calls, tl.
    apply follows_for_each. intros resolution. cbv zeta. straight.
  - unfold change_wallpaper_calls. simpl tl. now rewrite !app_nil_r.
  - auto.
Qed.

End Steps.

(** ** The pipeline as a whole *)

Arguments run_command : simpl never.
Arguments finish : simpl never.
Arguments CRDSetup : simpl never.
Arguments main : simpl never.
Arguments validate_inputs : simpl never.
Arguments pipeline_calls : simpl never.
Arguments summary : simpl never.

Section Pipeline.

Variable h : Host.
Variable g : Globals.
Variable fuel : nat.

Lemma idle_loop_eq (n : nat) (w : World) :
  exists k,
    idle_loop h n w
    = (if woken h (sleeps w) n then Raise KeyboardInterrupt else Blocked,
       mkWorld (stderr w) (calls w) (log w) (stdout w) (environ w) k).
Proof.
  revert w. induction n as [|n IH]; intros w.
  - exists (sleeps w). destruct w; reflexivity.
  - unfold woken. simpl. unfold bind, time_sleep.
    destruct (sleep_interrupted h (sleeps w)); simpl.
    + eexists; reflexivity.
    + destruct (IH (mkWorld (stderr w) (calls w) (log w) (stdout w) (environ w) (S (sleeps w))))
        as (k & E).
      rewrite E. simpl. exists k. reflexivity.
Qed.


Lemma ends_bind {A} outs (m : M A) (k : A -> M unit) cs1 cs2 (P : A -> Prop) :
  follows h m cs1 P ->
  (forall a, P a -> ends h fuel outs (k a) cs2) ->
  ends h fuel outs (bind m k) (cs1 ++ cs2).
Proof.
  intros Hm Hk w. unfold bind.
  destruct (Hm w) as (r & w1 & E & Hc & Ho & Hs & _ & Hr).
  rewrite E, interrupted_in_app, executed_app.
  destruct (interrupted_in h (List.length (calls w)) cs1) eqn:Hi.
  - subst r. exists (Raise KeyboardInterrupt), w1. simpl. auto.
  - destruct Hr as (a & -> & Ha). rewrite (executed_all _ _ _ Hi) in Hc.
    destruct (Hk a Ha w1) as (r2 & w2 & E2 & Hc2 & Hr2).
    assert (Hlen : List.length (calls w1)
                   = (List.length cs1 + List.length (calls w))%nat)
      by (rewrite Hc, length_app; lia).
    rewrite Hlen, Ho, Hs in *. exists r2, w2. simpl. repeat split.
    + exact E2.
    + rewrite Hc2, Hc, app_assoc. reflexivity.
    + exact Hr2.
Qed.

Lemma ends_eq outs (m : M unit) cs cs' :
  ends h fuel outs m cs -> cs = cs' -> ends h fuel outs m cs'.
Proof. now intros H <-. Qed.

(** A [print] in front of a tail that makes no call. *)
Lemma ends_print outs (s : pystr) (k : M unit) :
  ends h fuel outs k [] -> ends h fuel ((s ++ NL) :: outs) (print s ;; k) [].
Proof.
  intros Hk w. unfold bind, print, write.
  destruct (Hk (mkWorld (stderr w) (calls w) (log w) (stdout w ++ [s ++ NL]) (environ w)
                  (sleeps w))) as (r & w' & E & Hc & Hr).
  cbn [calls stdout sleeps interrupted_in executed] in *.
  exists r, w'. split; [exact E|]. split; [exact Hc|].
  destruct Hr as [Hr Ho]. split; [exact Hr|].
  rewrite Ho, <- app_assoc. reflexivity.
Qed.

(** The wait at the end of [finish]. *)
Lemma wait_ends :
  ends h fuel []
    (try_except (idle_loop h fuel)
       (fun e =>
          match e with
          | KeyboardInterrupt =>
              Some (logger_info (lit "Script terminated by user") ;;
                    print (NL ++ lit "Exiting..."))
          | _ => None
          end))
    [].
Proof.
  intros w. unfold try_except.
  destruct (idle_loop_eq fuel w) as (k & E). rewrite E.
  cbn [interrupted_in executed]. rewrite app_nil_r.
  destruct (woken h (sleeps w) fuel).
  - eexists _, _. split; [reflexivity|]. cbn [calls stdout]. auto.
  - eexists _, _. split; [reflexivity|]. cbn [calls stdout].
    rewrite app_nil_r. auto.
Qed.

Lemma finish_ends (user : pystr) :
  ends h fuel (summary g) (finish h g fuel user) (finish_calls g user).
Proof.
  unfold finish, logger_info, summary.
  eapply ends_eq with (cs := [] ++ [_] ++ [_] ++ [_] ++ []).
  - eapply ends_bind; [apply follows_logger | intros ? _].
    eapply ends_bind; [apply follows_run_command | intros ? _].
    eapply ends_bind; [apply follows_run_command | intros ? _].
    eapply ends_bind; [apply follows_run_command | intros ? _].
    do 10 apply ends_print. apply wait_ends.
  - reflexivity.
Qed.

Lemma CRDSetup_ends (user : pystr) :
  ends h fuel (summary g) (CRDSetup h g fuel user) (pipeline_calls g user).
Proof.
  unfold CRDSetup, logger_info.
  eapply ends_eq.
  - eapply ends_bind; [apply follows_logger | intros ? _].
    eapply ends_bind; [apply update_system_follows | intros ? _].
    eapply ends_bind; [apply setup_user_follows | intros ? _].
    eapply ends_bind; [apply install_crd_follows | intros crd_ok <-].
    cbn [negb].
    eapply ends_bind; [apply install_desktop_environment_follows | intros desktop_ok <-].
    cbn [negb].
    eapply ends_bind; [apply install_google_chrome_follows | intros ? _].
    eapply ends_bind; [apply install_python_follows | intros ? _].
    eapply ends_bind; [apply install_selenium_webdriver_follows | intros ? _].
    eapply ends_bind; [apply install_qbittorrent_follows | intros ? _].
    eapply ends_bind; [apply change_wallpaper_follows | intros ? _].
    apply finish_ends.
  - unfold pipeline_calls, preparation_calls, later_calls.
    rewrite <- !app_assoc. reflexivity.
Qed.

End Pipeline.

(** ** The module body *)


Section Runs.

Variable h : Host.

Lemma validate_inputs_eq (g : Globals) (w : World) :
  validate_inputs g w
  = if is_empty (CRD_SSH_Code g) || is_empty (strip (CRD_SSH_Code g)) then
      (Return false,
       mkWorld (stderr w) (calls w)
         (log w ++ [(ERROR, lit "Please enter a valid Chrome Remote Desktop SSH code")])
         (stdout w) (environ w) (sleeps w))
    else if (List.length (str_int (Pin g)) <? 6)%nat then
      (Return false,
       mkWorld (stderr w) (calls w) (log w ++ [(ERROR, lit "PIN must be at least 6 digits")])
         (stdout w) (environ w) (sleeps w))
    else (Return true, w).
Proof.
  unfold validate_inputs.
  destruct (is_empty (CRD_SSH_Code g) || is_empty (strip (CRD_SSH_Code g)));
    [reflexivity|].
  destruct (List.length (str_int (Pin g)) <? 6)%nat; reflexivity.
Qed.

Lemma main_not_root (g : Globals) (fuel : nat) (w : World) :
  euid h <> 0%Z ->
  main h g fuel w
  = (Raise (SystemExit 1),
     mkWorld (stderr w) (calls w) (log w ++ [(ERROR, lit "This script must be run as root")])
       (stdout w) (environ w) (sleeps w)).
Proof.
  intros Hne. apply Z.eqb_neq in Hne.
  unfold main, try_except, bind, os_geteuid, ret. rewrite Hne. reflexivity.
Qed.

Lemma main_root (g : Globals) (fuel : nat) (w : World) :
  euid h = 0%Z ->
  exists r w',
    main h g fuel w = (r, w')
    /\ calls w' = calls w
                  ++ executed h (List.length (calls w)) (pipeline_calls g (username g))
    /\ if interrupted_in h (List.length (calls w)) (pipeline_calls g (username g))
       then r = Raise (SystemExit 1) /\ stdout w' = stdout w
       else r = (if woken h (sleeps w) fuel then Return tt else Blocked)
            /\ stdout w' = stdout w ++ summary g
                           ++ (if woken h (sleeps w) fuel then [farewell] else []).
Proof.
  intros Hroot.
  destruct (CRDSetup_ends h g fuel (username g) w) as (r & w' & E & Hc & Hr).
  unfold main, try_except, bind, os_geteuid, ret. rewrite Hroot.
  cbn [Z.eqb negb]. rewrite E.
  destruct (interrupted_in h (List.length (calls w)) (pipeline_calls g (username g))).
  - destruct Hr as [-> Ho]. eexists _, _. split; [reflexivity|].
    cbn [calls stdout]. auto.
  - destruct Hr as [-> Ho].
    destruct (woken h (sleeps w) fuel); eexists _, _; (split; [reflexivity|]); auto.
Qed.

Ltac close_early :=
  eexists _, _; split; [reflexivity|];
  cbn [exit_status calls orb negb init_world]; auto.

Ltac settle_run h pin fuel :=
  let s := fresh "s" in
  let Hb := fresh "Hb" in
  let H1 := fresh "H1" in
  let H2 := fresh "H2" in
  let He := fresh "He" in
  let r := fresh "r" in
  let w' := fresh "w'" in
  let E := fresh "E" in
  let Hc := fresh "Hc" in
  let Hr := fresh "Hr" in
  let Ho := fresh "Ho" in
  destruct (stdin_line h) as [s| |]; cbn [raise ret fst snd];
  [ | close_early | close_early ];
  unfold bind at 1; rewrite validate_inputs_eq; cbn [CRD_SSH_Code Pin];
  destruct (blank s) eqn:Hb;
  [ rewrite (strip_blank s Hb); cbn [is_empty orb]; close_early
  | destruct (strip_not_blank s Hb) as [H1 H2]; rewrite H1, H2; cbn [orb];
    destruct (List.length (str_int pin) <? 6)%nat;
    [ close_early
    | cbn [negb]; unfold bind at 1; cbn [ret orb];
      destruct (euid h =? 0)%Z eqn:He;
      [ apply Z.eqb_eq in He; cbn [negb];
        match goal with
        | |- context [main h ?g0 fuel ?w0] =>
            destruct (main_root g0 fuel w0 He) as (r & w' & E & Hc & Hr);
            rewrite E
        end;
        cbn [calls stdout sleeps init_world List.length app username] in Hc, Hr;
        cbn [app];
        destruct (interrupted_in h 0 _);
        [ destruct Hr as [-> Ho]; eexists _, _; split; [reflexivity|];
          cbn [exit_status]; auto
        | destruct Hr as [-> Ho]; destruct (woken h 0 fuel); eexists _, _;
          (split; [reflexivity|]); cbn [exit_status]; auto ]
      | apply Z.eqb_neq in He; cbn [negb];
        rewrite (main_not_root _ fuel _ He); close_early ] ] ].

(** What a run comes to, case by case. *)
Lemma run_with_spec (user pass : pystr) (pin : Z) (fuel : nat) :
  let g := globals_of h user pass pin in
  let cs := pipeline_calls g user in
  exists o w,
    run_with h user pass pin fuel = (o, w)
    /\ if refused h pin then o = ExitCode 1 /\ calls w = []
       else calls w = executed h 0 cs
            /\ if interrupted_in h 0 cs
               then o = ExitCode 1 /\ stdout w = prompt_on_stdout h
               else o = (if woken h 0 fuel then ExitCode 0 else Running)
                    /\ stdout w = prompt_on_stdout h ++ summary g
                                  ++ (if woken h 0 fuel then [farewell] else []).
Proof.
  intros g cs. subst g cs.
  unfold run_with, python, script_with, globals_of, token, refused,
    prompt_on_stdout.
  unfold bind at 1. unfold try_except at 1. unfold bind at 1.
  unfold input, bind at 1, write, write_err.
  destruct (on_terminal h); settle_run h pin fuel.
Qed.

End Runs.

(** ** Consequences used by the statements *)

Section Consequences.

Variable h : Host.
Variables user pass : pystr.
Variable pin : Z.
Variable fuel : nat.

Let g := globals_of h user pass pin.
Let cs := pipeline_calls g user.

Lemma run_with_refused :
  refused h pin = true ->
  fst (run_with h user pass pin fuel) = ExitCode 1
  /\ calls (snd (run_with h user pass pin fuel)) = [].
Proof.
  intros Hr. destruct (run_with_spec h user pass pin fuel) as (o & w & E & H).
  rewrite E, Hr in *. exact H.
Qed.

Lemma run_with_cut :
  refused h pin = false -> interrupted_in h 0 cs = true ->
  fst (run_with h user pass pin fuel) = ExitCode 1
  /\ calls (snd (run_with h user pass pin fuel)) = executed h 0 cs
  /\ stdout (snd (run_with h user pass pin fuel)) = prompt_on_stdout h.
Proof.
  intros Hr Hi. destruct (run_with_spec h user pass pin fuel) as (o & w & E & H).
  fold g cs in H. rewrite E, Hr, Hi in *. tauto.
Qed.

Lemma run_with_through :
  refused h pin = false -> interrupted_in h 0 cs = false ->
  fst (run_with h user pass pin fuel)
  = (if woken h 0 fuel then ExitCode 0 else Running)
  /\ calls (snd (run_with h user pass pin fuel)) = cs
  /\ stdout (snd (run_with h user pass pin fuel))
     = prompt_on_stdout h ++ summary g
       ++ (if woken h 0 fuel then [farewell] else []).
Proof.
  intros Hr Hi. destruct (run_with_spec h user pass pin fuel) as (o & w & E & H).
  fold g cs in H. rewrite E, Hr, Hi in *. destruct H as (Hc & Ho & Hs).
  rewrite (executed_all _ _ _ Hi) in Hc. auto.
Qed.

Lemma refused_true_iff :
  refused h pin = true <->
  stdin_line h = InputInterrupt \/ stdin_line h = InputEOF
  \/ (exists s, stdin_line h = InputLine s /\ blank s = true)
  \/ (List.length (str_int pin) < 6)%nat
  \/ euid h <> 0%Z.
Proof.
  unfold refused. destruct (stdin_line h) as [s| |].
  - rewrite !orb_true_iff, Nat.ltb_lt, negb_true_iff, Z.eqb_neq. split.
    + intros [[H|H]|H]; eauto 6.
    + intros [H|[H|[(s' & E & H)|[H|H]]]]; try discriminate; auto.
      inversion E; subst; auto.
  - split; auto.
  - split; auto.
Qed.

Lemma refused_false_iff :
  refused h pin = false <->
  (exists s, stdin_line h = InputLine s /\ blank s = false)
  /\ (6 <= List.length (str_int pin))%nat
  /\ euid h = 0%Z.
Proof.
  unfold refused. destruct (stdin_line h) as [s| |].
  - rewrite !orb_false_iff, Nat.ltb_ge, negb_false_iff, Z.eqb_eq. split.
    + intros [[H1 H2] H3]. eauto.
    + intros [(s' & E & H1) [H2 H3]]. inversion E; subst; auto.
  - split; [discriminate | intros [(s & E & _) _]; discriminate].
  - split; [discriminate | intros [(s & E & _) _]; discriminate].
Qed.

Lemma woken_iff (n : nat) :
  woken h 0 n = true <-> exists k, (k < n)%nat /\ sleep_interrupted h k = true.
Proof.
  unfold woken. rewrite existsb_exists. split.
  - intros (k & Hin & Hk). apply in_seq in Hin. exists k. split; [lia|auto].
  - intros (k & Hlt & Hk). exists k. split; [apply in_seq; lia | auto].
Qed.

End Consequences.

(** ** Input validation and the privilege check *)

(** C2.  A token that is empty or white space only makes the program exit
    with code 1 before any Command Runner invocation: no call of
    [subprocess.run] is made, so no package command runs and no account is
    created. *)
Theorem blank_token_aborts (h : Host) (s user pass : pystr) (pin : Z) (fuel : nat) :
  stdin_line h = InputLine s ->
  blank s = true ->
  fst (run_with h user pass pin fuel) = ExitCode 1
  /\ calls (snd (run_with h user pass pin fuel)) = [].
Proof.
  intros Hs Hb. apply run_with_refused. apply refused_true_iff. eauto 6.
Qed.

Lemma blank_token_aborts_witness :
  fst (run_with (calm_host (InputLine (lit "  ")) 0) (lit "user") (lit "root")
         482913 1) = ExitCode 1
  /\ calls (snd (run_with (calm_host (InputLine (lit "  ")) 0) (lit "user")
                   (lit "root") 482913 1)) = [].
Proof.
  apply (blank_token_aborts (calm_host (InputLine (lit "  ")) 0) (s := lit "  "));
    reflexivity.
Defined.

(** C3.  A PIN whose decimal representation has fewer than 6 characters
    makes the program exit with code 1 before any Command Runner
    invocation, whatever the operator types. *)
Theorem short_pin_aborts (h : Host) (user pass : pystr) (pin : Z) (fuel : nat) :
  (List.length (str_int pin) < 6)%nat ->
  fst (run_with h user pass pin fuel) = ExitCode 1
  /\ calls (snd (run_with h user pass pin fuel)) = [].
Proof.
  intros Hp. apply run_with_refused. apply refused_true_iff. auto 6.
Qed.

Lemma short_pin_aborts_witness :
  fst (run_with (calm_host (InputLine (lit "crd-code-abc")) 0) (lit "user")
         (lit "root") 12345 1) = ExitCode 1
  /\ calls (snd (run_with (calm_host (InputLine (lit "crd-code-abc")) 0)
                   (lit "user") (lit "root") 12345 1)) = [].
Proof.
  apply (short_pin_aborts (calm_host (InputLine (lit "crd-code-abc")) 0)).
  vm_compute. lia.
Defined.

(** C4.  Without superuser privileges (effective uid not 0) the program
    exits with code 1 and [run_command] is never invoked. *)
Theorem not_root_aborts (h : Host) (user pass : pystr) (pin : Z) (fuel : nat) :
  euid h <> 0%Z ->
  fst (run_with h user pass pin fuel) = ExitCode 1
  /\ calls (snd (run_with h user pass pin fuel)) = [].
Proof.
  intros Hu. apply run_with_refused. apply refused_true_iff. auto 6.
Qed.

Lemma not_root_aborts_witness :
  fst (run_with (calm_host (InputLine (lit "crd-code-abc")) 1000) (lit "user")
         (lit "root") 123456 1) = ExitCode 1
  /\ calls (snd (run_with (calm_host (InputLine (lit "crd-code-abc")) 1000)
                   (lit "user") (lit "root") 123456 1)) = [].
Proof.
  apply (not_root_aborts (calm_host (InputLine (lit "crd-code-abc")) 1000)).
  discriminate.
Defined.

(** ** The Command Runner *)

(** C5, as the code has it.  [run_command] returns a boolean unless Ctrl+C
    cuts the child short: a child that cannot be launched, whose captured
    output does not decode, or that exits non-zero with the check flag set,
    gives [False] and one ERROR record holding the command and the error
    detail; any other child that ran to the end gives [True] and no record;
    a [KeyboardInterrupt] is passed on to the caller. *)
Theorem run_command_outcomes (h : Host) (command : pystr)
    (use_shell check_result : bool) (w : World) :
  let r := run_command h command use_shell check_result w in
  match spawn h (List.length (calls w)) (Call command use_shell check_result) with
  | Exited rc err =>
      if check_result && negb (rc =? 0)%Z
      then fst r = Return false
           /\ log (snd r)
              = log w ++ [(ERROR, lit "Command failed: " ++ command ++ lit " - "
                                  ++ cpe_text h command rc)]
      else fst r = Return true /\ log (snd r) = log w
  | LaunchError msg =>
      fst r = Return false
      /\ log (snd r)
         = log w ++ [(ERROR, lit "Unexpected error running command: " ++ command
                             ++ lit " - " ++ msg)]
  | Garbled _ msg =>
      fst r = Return false
      /\ log (snd r)
         = log w ++ [(ERROR, lit "Unexpected error running command: " ++ command
                             ++ lit " - " ++ msg)]
  | Interrupted => fst r = Raise KeyboardInterrupt
  end.
Proof.
  intros r. subst r. rewrite run_command_eq. cbv zeta.
  destruct (spawn h (List.length (calls w)) _) as [rc err|msg|rc msg|].
  - destruct (check_result && negb (rc =? 0)%Z); cbn [fst snd log];
      rewrite ?app_nil_r; auto.
  - cbn [fst snd log]. auto.
  - cbn [fst snd log]. auto.
  - reflexivity.
Qed.

(** C5, as the claim has it, fails: when Ctrl+C arrives while the child
    runs, [run_command] returns no boolean and the exception leaves it. *)
Lemma run_command_propagates_interrupt :
  ~ (exists b : bool,
        fst (run_command impatient_host (lit "apt update") true true init_world)
        = Return b).
Proof.
  intros [b H]. vm_compute in H. discriminate H.
Qed.

(** C9, as the code has it.  With [check_result=False], [run_command]
    returns [True] whenever the child ran to completion and its captured
    output decoded, whatever its exit status; it returns [False] only when
    running the child raised an exception, and that includes the
    [UnicodeDecodeError] raised for a child that ran to completion with
    output that does not decode, whatever its exit status. *)
Theorem run_command_unchecked (h : Host) (command : pystr) (use_shell : bool)
    (w : World) :
  (forall rc err,
      spawn h (List.length (calls w)) (Call command use_shell false) = Exited rc err ->
      fst (run_command h command use_shell false w) = Return true)
  /\ (fst (run_command h command use_shell false w) = Return false ->
      (exists msg,
          spawn h (List.length (calls w)) (Call command use_shell false)
          = LaunchError msg)
      \/ (exists rc msg,
             spawn h (List.length (calls w)) (Call command use_shell false)
             = Garbled rc msg))
  /\ (forall rc msg,
         spawn h (List.length (calls w)) (Call command use_shell false)
         = Garbled rc msg ->
         fst (run_command h command use_shell false w) = Return false).
Proof.
  rewrite run_command_eq. cbv zeta.
  destruct (spawn h (List.length (calls w)) _) as [rc err|msg|rc msg|];
    cbn [andb fst].
  - split; [reflexivity | split; discriminate].
  - split; [discriminate | split; [eauto | discriminate]].
  - split; [discriminate | split; [eauto | reflexivity]].
  - split; [discriminate | split; discriminate].
Qed.

(** C9, as the claim has it, fails: a child that starts and runs to
    completion with exit status 0, but whose captured output does not
    decode, makes [run_command] return [False] with [check_result=False]. *)
Lemma run_command_false_after_completion :
  (exists msg,
      spawn garbling_host 0 (Call (lit "apt install -y qbittorrent") true false)
      = Garbled 0 msg)
  /\ fst (run_command garbling_host (lit "apt install -y qbittorrent") true false
             init_world)
     = Return false.
Proof.
  split; [eexists; reflexivity | vm_compute; reflexivity].
Qed.

Lemma run_command_unchecked_witness :
  fst (run_command broken_install_host (lit "dpkg -i chrome-remote-desktop_current_amd64.deb")
         true false
         (mkWorld [] (repeat (sh true []) 6) [] [] [] 0))
  = Return true.
Proof.
  apply (proj1 (run_command_unchecked broken_install_host
                  (lit "dpkg -i chrome-remote-desktop_current_amd64.deb") true
                  (mkWorld [] (repeat (sh true []) 6) [] [] [] 0))
           1%Z (lit "E: failed")).
  reflexivity.
Defined.

(** ** The PIN rule *)


Lemma all_from_spec (P : Z -> bool) (n : nat) :
  forall z, all_from P z n = true ->
  forall k, (z <= k < z + Z.of_nat n)%Z -> P k = true.
Proof.
  induction n as [|n IH]; intros z H k Hk; [lia|].
  simpl in H. apply andb_true_iff in H as [Hz Hrest].
  destruct (Z.eq_dec k z) as [->|Hne]; [assumption|].
  apply (IH (z + 1)%Z Hrest). lia.
Qed.

Lemma five_digit_negatives (pin : Z) :
  (-99999 <= pin <= -10000)%Z ->
  List.length (str_int pin) = 6%nat /\ hd_error (str_int pin) = hd_error (lit "-").
Proof.
  intros Hp.
  pose (P := fun z => (List.length (str_int z) =? 6)%nat
                      && match str_int z with
                         | c :: _ => (c =? 45)%N
                         | [] => false
                         end).
  assert (H : all_from P (-99999) (Z.to_nat 90000) = true) by (vm_compute; reflexivity).
  pose proof (@all_from_spec P _ _ H pin) as Hk.
  assert (HP : P pin = true) by (apply Hk; lia).
  unfold P in HP. apply andb_true_iff in HP as [H1 H2].
  apply Nat.eqb_eq in H1. split; [assumption|].
  destruct (str_int pin) as [|c t]; [discriminate|].
  apply N.eqb_eq in H2. subst c. reflexivity.
Qed.

Lemma pin_rule_holds (code user pass : pystr) (pin : Z) (w : World) :
  is_empty code = false ->
  is_empty (strip code) = false ->
  (6 <= List.length (str_int pin))%nat ->
  validate_inputs (mkGlobals code user pass pin) w = (Return true, w).
Proof.
  intros Hne Hcode Hlen. rewrite validate_inputs_eq. cbn [CRD_SSH_Code Pin].
  rewrite Hne, Hcode. cbn [orb].
  apply Nat.ltb_ge in Hlen. rewrite Hlen. reflexivity.
Qed.

(** C10.  With a valid token, validation accepts every PIN whose [str()]
    has at least 6 characters; a negative PIN of five digits, such as
    -12345, is accepted because its [str()] has 6 characters, the first of
    them the minus sign. *)
Theorem pin_rule_counts_characters (code user pass : pystr) (pin : Z) (w : World) :
  is_empty (strip code) = false ->
  ((6 <= List.length (str_int pin))%nat ->
   validate_inputs (mkGlobals code user pass pin) w = (Return true, w))
  /\ ((-99999 <= pin <= -10000)%Z ->
      List.length (str_int pin) = 6%nat
      /\ hd_error (str_int pin) = hd_error (lit "-")
      /\ validate_inputs (mkGlobals code user pass pin) w = (Return true, w)).
Proof.
  intros Hcode.
  assert (Hne : is_empty code = false) by (destruct code; [discriminate Hcode | reflexivity]).
  assert (Hok : (6 <= List.length (str_int pin))%nat ->
                validate_inputs (mkGlobals code user pass pin) w = (Return true, w))
    by (intros Hlen; apply pin_rule_holds; assumption).
  split; [exact Hok|].
  intros Hp. destruct (five_digit_negatives Hp) as [Hlen Hsign].
  repeat split; [assumption | assumption | apply Hok; lia].
Qed.

Lemma pin_rule_counts_characters_witness :
  List.length (str_int (-12345)) = 6%nat
  /\ hd_error (str_int (-12345)) = hd_error (lit "-")
  /\ validate_inputs (mkGlobals (lit "crd-code-abc") (lit "user") (lit "root") (-12345))
       init_world
     = (Return true, init_world).
Proof.
  apply (pin_rule_counts_characters (lit "crd-code-abc") (lit "user") (lit "root")
           (-12345) init_world).
  - reflexivity.
  - lia.
Defined.

(** ** Failures and the order of the steps *)

(** C1.  The code breaks the claim.  On a host where every command of
    the two load-bearing steps fails, the first command of [install_crd]
    and the first of [install_desktop_environment] return [False] to their
    step, yet both steps return [True]: the gate of [__init__] on their
    result never closes, the run makes every call of the pipeline, the
    three of [finish] last, and ends with exit code 0. *)
Lemma failed_install_does_not_stop :
  let w5 := mkWorld [] (preparation_calls
                       (globals_of broken_install_host (lit "user") (lit "root") 123456)
                       (lit "user")) [] [] [] 0 in
  let w8 := mkWorld [] (calls w5 ++ install_crd_calls) [] [] [] 0 in
  let r := run broken_install_host 1 in
  fst (run_command broken_install_host (hd [] install_crd_commands) true false w5)
  = Return false
  /\ fst (install_crd broken_install_host w5) = Return true
  /\ fst (run_command broken_install_host (hd [] desktop_commands) true false w8)
     = Return false
  /\ fst (install_desktop_environment broken_install_host w8) = Return true
  /\ calls (snd r)
     = pipeline_calls (globals_of broken_install_host (lit "user") (lit "root") 123456)
         (lit "user")
  /\ (exists before,
         calls (snd r)
         = before ++ finish_calls
                       (globals_of broken_install_host (lit "user") (lit "root") 123456)
                       (lit "user"))
  /\ fst r = ExitCode 0.
Proof.
  cbv zeta. split; [|split; [|split; [|split; [|split; [|split]]]]].
  - vm_compute. reflexivity.
  - vm_compute. reflexivity.
  - vm_compute. reflexivity.
  - vm_compute. reflexivity.
  - vm_compute. reflexivity.
  - eexists (firstn 25 (calls (snd (run broken_install_host 1)))).
    vm_compute. reflexivity.
  - vm_compute. reflexivity.
Qed.


Section Noninterference.

Variables h1 h2 : Host.
Hypothesis Hsame : same_but_failures h1 h2.

Lemma interrupted_in_same (cs : list call) :
  forall n, interrupted_in h1 n cs = interrupted_in h2 n cs.
Proof.
  destruct Hsame as (_ & _ & _ & Hsp).
  induction cs as [|c r IH]; intros n; simpl; [reflexivity|].
  now rewrite Hsp, IH.
Qed.

Lemma executed_same (cs : list call) :
  forall n, executed h1 n cs = executed h2 n cs.
Proof.
  destruct Hsame as (_ & _ & _ & Hsp).
  induction cs as [|c r IH]; intros n; simpl; [reflexivity|].
  now rewrite Hsp, IH.
Qed.

Lemma woken_same (n fuel : nat) : woken h1 n fuel = woken h2 n fuel.
Proof.
  destruct Hsame as (_ & _ & Hsl & _). unfold woken.
  revert n. induction fuel as [|f IH]; intros n; simpl; [reflexivity|].
  now rewrite Hsl, IH.
Qed.

Lemma refused_same (pin : Z) : refused h1 pin = refused h2 pin.
Proof.
  destruct Hsame as (Hin & He & _ & _). unfold refused. now rewrite Hin, He.
Qed.

Lemma globals_of_same (user pass : pystr) (pin : Z) :
  globals_of h1 user pass pin = globals_of h2 user pass pin.
Proof.
  destruct Hsame as (Hin & _). unfold globals_of, token. now rewrite Hin.
Qed.

Lemma run_with_same (user pass : pystr) (pin : Z) (fuel : nat) :
  fst (run_with h1 user pass pin fuel) = fst (run_with h2 user pass pin fuel)
  /\ calls (snd (run_with h1 user pass pin fuel))
     = calls (snd (run_with h2 user pass pin fuel)).
Proof.
  destruct (run_with_spec h1 user pass pin fuel) as (o1 & w1 & E1 & H1).
  destruct (run_with_spec h2 user pass pin fuel) as (o2 & w2 & E2 & H2).
  rewrite E1, E2. cbn [fst snd].
  rewrite <- globals_of_same, <- refused_same, <- interrupted_in_same,
    <- executed_same, <- woken_same in H2.
  destruct (refused h1 pin).
  - destruct H1 as [-> ->], H2 as [-> ->]. auto.
  - destruct H1 as [-> H1], H2 as [-> H2]. split; [|reflexivity].
    destruct (interrupted_in h1 0 _).
    + destruct H1 as [-> _], H2 as [-> _]. reflexivity.
    + destruct H1 as [-> _], H2 as [-> _]. reflexivity.
Qed.

End Noninterference.

(** C6.  Whether commands fail plays no part in which steps run: two runs
    that differ only in the commands that fail make the same calls and end
    alike; so when the run with no failure goes through all the steps, the
    run with failures in the best-effort steps (or anywhere) makes every
    call of the pipeline too, the calls of [finish] included, and prints
    the summary. *)
Theorem failures_do_not_stop_later_steps (h1 h2 : Host) (user pass : pystr)
    (pin : Z) (fuel : nat) :
  same_but_failures h1 h2 ->
  refused h1 pin = false ->
  interrupted_in h1 0 (pipeline_calls (globals_of h1 user pass pin) user) = false ->
  let g := globals_of h2 user pass pin in
  let r2 := run_with h2 user pass pin fuel in
  fst r2 = fst (run_with h1 user pass pin fuel)
  /\ calls (snd r2) = pipeline_calls g user
  /\ (exists before, calls (snd r2) = before ++ finish_calls g user)
  /\ (exists after, stdout (snd r2) = prompt_on_stdout h2 ++ summary g ++ after)
  /\ fst r2 <> ExitCode 1.
Proof.
  intros Hsame Hr Hi g r2. subst g r2.
  destruct (run_with_same Hsame user pass pin fuel) as [Ho Hc].
  rewrite (refused_same Hsame) in Hr.
  rewrite (globals_of_same Hsame), (interrupted_in_same Hsame) in Hi.
  destruct (@run_with_through h2 user pass pin fuel Hr Hi) as (Ho2 & Hc2 & Hs2).
  split; [auto|]. split; [exact Hc2|]. split; [|split].
  - rewrite Hc2. unfold pipeline_calls, later_calls.
    eexists. rewrite !app_assoc. reflexivity.
  - rewrite Hs2. eauto.
  - rewrite Ho2. destruct (woken h2 0 fuel); discriminate.
Qed.

Lemma flaky_host_same :
  same_but_failures (calm_host (InputLine (lit "crd-code-abc")) 0) flaky_host.
Proof.
  repeat split. intros n c. cbn [spawn calm_host flaky_host].
  destruct (n =? 22)%nat; [reflexivity|].
  destruct ((13 <? n)%nat && (n <? 25)%nat); reflexivity.
Defined.

Lemma failures_do_not_stop_later_steps_witness :
  let g := globals_of flaky_host (lit "user") (lit "root") 123456 in
  let r2 := run_with flaky_host (lit "user") (lit "root") 123456 1 in
  fst r2 = fst (run_with (calm_host (InputLine (lit "crd-code-abc")) 0)
                  (lit "user") (lit "root") 123456 1)
  /\ calls (snd r2) = pipeline_calls g (lit "user")
  /\ (exists before, calls (snd r2) = before ++ finish_calls g (lit "user"))
  /\ (exists after, stdout (snd r2) = prompt_on_stdout flaky_host ++ summary g ++ after)
  /\ fst r2 <> ExitCode 1.
Proof.
  apply (@failures_do_not_stop_later_steps
           (calm_host (InputLine (lit "crd-code-abc")) 0) flaky_host
           (lit "user") (lit "root") 123456 1 flaky_host_same);
    vm_compute; reflexivity.
Defined.

(** ** Exit codes *)

(** C7, as the code has it.  The exit code is 0 exactly when the run gets
    to the idle wait and Ctrl+C ends that wait; it is 1 exactly on Ctrl+C at
    the prompt, a closed standard input (the unhandled [EOFError]), a blank
    token, a short PIN, a uid other than 0, or Ctrl+C while a command of
    the setup runs; no other code occurs, and a wait nobody interrupts has
    no exit code at all. *)
Theorem exit_codes (h : Host) (user pass : pystr) (pin : Z) (fuel : nat) :
  let cs := pipeline_calls (globals_of h user pass pin) user in
  let code := fst (run_with h user pass pin fuel) in
  (code = ExitCode 0 <->
     (exists s, stdin_line h = InputLine s /\ blank s = false)
     /\ (6 <= List.length (str_int pin))%nat
     /\ euid h = 0%Z
     /\ interrupted_in h 0 cs = false
     /\ exists k, (k < fuel)%nat /\ sleep_interrupted h k = true)
  /\ (code = ExitCode 1 <->
        stdin_line h = InputInterrupt
        \/ stdin_line h = InputEOF
        \/ (exists s, stdin_line h = InputLine s /\ blank s = true)
        \/ (List.length (str_int pin) < 6)%nat
        \/ euid h <> 0%Z
        \/ interrupted_in h 0 cs = true)
  /\ (code = ExitCode 0 \/ code = ExitCode 1 \/ code = Running)
  /\ (code = Running <->
        refused h pin = false /\ interrupted_in h 0 cs = false
        /\ forall k, (k < fuel)%nat -> sleep_interrupted h k = false).
Proof.
  intros cs code. subst code.
  assert (Hw : woken h 0 fuel = false <->
               forall k, (k < fuel)%nat -> sleep_interrupted h k = false).
  { split.
    - intros H k Hk. destruct (sleep_interrupted h k) eqn:E; [|reflexivity].
      rewrite (proj2 (woken_iff h fuel)) in H; [discriminate | eauto].
    - intros H. destruct (woken h 0 fuel) eqn:E; [|reflexivity].
      apply woken_iff in E as (k & Hk & Hs). rewrite (H k Hk) in Hs. discriminate. }
  destruct (refused h pin) eqn:Hr.
  - destruct (@run_with_refused h user pass pin fuel Hr) as [-> _].
    pose proof (proj1 (refused_true_iff h pin) Hr) as Hd.
    split; [|split; [|split]].
    + split; [discriminate|]. intros (Hs & Hp & Hu & _).
      assert (refused h pin = false) by (apply refused_false_iff; auto).
      congruence.
    + split; [intros _; tauto | reflexivity].
    + auto.
    + split; [discriminate | intros [? _]; discriminate].
  - pose proof (proj1 (refused_false_iff h pin) Hr) as (Hs & Hp & Hu).
    assert (Hnd : ~ (stdin_line h = InputInterrupt \/ stdin_line h = InputEOF
                     \/ (exists s, stdin_line h = InputLine s /\ blank s = true)
                     \/ (List.length (str_int pin) < 6)%nat \/ euid h <> 0%Z)).
    { intros Hd. apply refused_true_iff in Hd. congruence. }
    destruct (interrupted_in h 0 cs) eqn:Hi.
    + destruct (@run_with_cut h user pass pin fuel Hr Hi) as [-> _].
      split; [|split; [|split]].
      * split; [discriminate | intros (_ & _ & _ & ? & _); discriminate].
      * split; auto 7.
      * auto.
      * split; [discriminate | intros (_ & ? & _); discriminate].
    + destruct (@run_with_through h user pass pin fuel Hr Hi) as [-> _].
      destruct (woken h 0 fuel) eqn:Hwk.
      * split; [|split; [|split]].
        -- split; [intros _ | reflexivity]. apply woken_iff in Hwk. auto 6.
        -- split; [discriminate|]. intros Hd. exfalso.
           destruct Hd as [H|[H|[H|[H|[H|H]]]]]; try discriminate; apply Hnd; auto 6.
        -- auto.
        -- split; [discriminate|]. intros (_ & _ & H). apply Hw in H. discriminate.
      * split; [|split; [|split]].
        -- split; [discriminate|]. intros (_ & _ & _ & _ & H).
           apply woken_iff in H. congruence.
        -- split; [discriminate|]. intros Hd. exfalso.
           destruct Hd as [H|[H|[H|[H|[H|H]]]]]; try discriminate; apply Hnd; auto 6.
        -- auto.
        -- split; [intros _ | reflexivity]. repeat split. apply Hw. reflexivity.
Qed.

(** C7, as the claim has it, fails: Ctrl+C at the input prompt ends the run
    with exit code 1, not 0, and so does Ctrl+C during the setup. *)
Lemma interrupt_exits_with_1 :
  stdin_line (calm_host InputInterrupt 0) = InputInterrupt
  /\ fst (run (calm_host InputInterrupt 0) 1) = ExitCode 1
  /\ fst (run (calm_host InputInterrupt 0) 1) <> ExitCode 0
  /\ fst (run impatient_host 1) = ExitCode 1.
Proof.
  repeat split; try (vm_compute; reflexivity).
  vm_compute. discriminate.
Qed.

(** ** The end-to-end scenario *)

(** C8, as the code has it.  With a token that is not blank, a PIN of at
    least 6 characters and uid 0, validation passes; if moreover Ctrl+C
    hits no command of the setup, the run makes every call of the pipeline,
    the three of [finish] last, and prints the summary with the lines
    [PIN: <pin>], [Username: <user>] and [Password: <password>] one after
    the other. *)
Theorem scenario_reaches_summary (h : Host) (s user pass : pystr) (pin : Z)
    (fuel : nat) :
  stdin_line h = InputLine s ->
  blank s = false ->
  (6 <= List.length (str_int pin))%nat ->
  euid h = 0%Z ->
  let g := mkGlobals (strip s) user pass pin in
  interrupted_in h 0 (pipeline_calls g user) = false ->
  let r := run_with h user pass pin fuel in
  (forall w, validate_inputs g w = (Return true, w))
  /\ calls (snd r) = pipeline_calls g user
  /\ (exists before, calls (snd r) = before ++ finish_calls g user)
  /\ (exists pre post,
         stdout (snd r)
         = pre ++ [ (lit "PIN: " ++ str_int pin) ++ NL;
                    (lit "Username: " ++ user) ++ NL;
                    (lit "Password: " ++ pass) ++ NL ] ++ post)
  /\ fst r <> ExitCode 1.
Proof.
  intros Hs Hb Hp Hu g Hi r. subst r.
  assert (Hg : globals_of h user pass pin = g)
    by (unfold globals_of, token; rewrite Hs; reflexivity).
  assert (Hr : refused h pin = false) by (apply refused_false_iff; eauto).
  rewrite <- Hg in Hi.
  destruct (@run_with_through h user pass pin fuel Hr Hi) as (Ho & Hc & Hso).
  rewrite Hg in *.
  split; [|split; [|split; [|split]]].
  - intros w. destruct (strip_not_blank s Hb) as [H1 H2].
    apply pin_rule_holds; assumption.
  - exact Hc.
  - rewrite Hc. unfold pipeline_calls, later_calls.
    eexists. rewrite !app_assoc. reflexivity.
  - rewrite Hso. unfold summary. cbn [Pin username password g].
    eexists (prompt_on_stdout h ++ [_; _; _]), _.
    rewrite <- !app_assoc. cbn [app]. reflexivity.
  - rewrite Ho. destruct (woken h 0 fuel); discriminate.
Qed.

Lemma scenario_reaches_summary_witness :
  let h := calm_host (InputLine (lit "crd-code-abc")) 0 in
  let g := mkGlobals (strip (lit "crd-code-abc")) (lit "user") (lit "root") 482913 in
  let r := run_with h (lit "user") (lit "root") 482913 1 in
  (forall w, validate_inputs g w = (Return true, w))
  /\ calls (snd r) = pipeline_calls g (lit "user")
  /\ (exists before, calls (snd r) = before ++ finish_calls g (lit "user"))
  /\ (exists pre post,
         stdout (snd r)
         = pre ++ [ (lit "PIN: " ++ str_int 482913) ++ NL;
                    (lit "Username: " ++ lit "user") ++ NL;
                    (lit "Password: " ++ lit "root") ++ NL ] ++ post)
  /\ fst r <> ExitCode 1.
Proof.
  apply (@scenario_reaches_summary
           (calm_host (InputLine (lit "crd-code-abc")) 0)
           (lit "crd-code-abc") (lit "user") (lit "root") 482913 1).
  - reflexivity.
  - reflexivity.
  - vm_compute. lia.
  - reflexivity.
  - vm_compute. reflexivity.
Defined.

(** C8, as the claim has it, fails: with the token and the PIN of the
    scenario and uid 0, Ctrl+C during the first command ends the run with
    exit code 1 after that one call; [finish] is not reached and the
    line [PIN: 482913] is not printed. *)
Lemma interrupted_scenario_prints_no_summary :
  let r := run_with impatient_host (lit "user") (lit "root") 482913 1 in
  stdin_line impatient_host = InputLine (lit "crd-code-abc")
  /\ blank (lit "crd-code-abc") = false
  /\ (6 <= List.length (str_int 482913))%nat
  /\ euid impatient_host = 0%Z
  /\ fst r = ExitCode 1
  /\ calls (snd r) = [sh true (lit "apt update")]
  /\ stdout (snd r) = prompt_on_stdout impatient_host
  /\ ~ In ((lit "PIN: " ++ str_int 482913) ++ NL) (stdout (snd r)).
Proof.
  cbv zeta.
  split; [reflexivity|]. split; [reflexivity|].
  split; [vm_compute; lia|]. split; [reflexivity|].
  split; [vm_compute; reflexivity|]. split; [vm_compute; reflexivity|].
  split; [vm_compute; reflexivity|].
  intros H. vm_compute in H. exact H.
Qed.

(** * Further properties of the script *)

(** ** Worlds only advance *)

Lemma advances_refl (w : World) : advances w w.
Proof.
  unfold advances. repeat split; try (solve [exists []; rewrite ?app_nil_r; auto]); auto.
Qed.

Lemma advances_trans (w1 w2 w3 : World) :
  advances w1 w2 -> advances w2 w3 -> advances w1 w3.
Proof.
  intros ((l1 & E1 & K1) & (e1 & F1 & G1) & (c1 & C1 & S1) & (o1 & O1) & T1)
         ((l2 & E2 & K2) & (e2 & F2 & G2) & (c2 & C2 & S2) & (o2 & O2) & T2).
  unfold advances. repeat split.
  - exists (l1 ++ l2). rewrite E2, E1, app_assoc, forallb_app, K1, K2. auto.
  - exists (e2 ++ e1). rewrite F2, F1, app_assoc. split; [reflexivity|].
    apply Forall_app; auto.
  - exists (c1 ++ c2). rewrite C2, C1, app_assoc, forallb_app, S1, S2. auto.
  - exists (o1 ++ o2). rewrite O2, O1, app_assoc. reflexivity.
  - lia.
Qed.

Lemma advances_log (w : World) (r : level * pystr) :
  known_record r = true ->
  advances w (mkWorld (stderr w) (calls w) (log w ++ [r]) (stdout w) (environ w) (sleeps w)).
Proof.
  intros Hr. unfold advances. cbn [calls log stdout environ sleeps].
  repeat split; try (solve [exists []; rewrite ?app_nil_r; auto]); auto.
  exists [r]. cbn [forallb]. rewrite Hr. auto.
Qed.

Lemma advances_out (w : World) (s : pystr) :
  advances w (mkWorld (stderr w) (calls w) (log w) (stdout w ++ [s]) (environ w) (sleeps w)).
Proof.
  unfold advances. cbn [calls log stdout environ sleeps].
  repeat split; try (solve [exists []; rewrite ?app_nil_r; auto]); eauto.
Qed.

Lemma advances_call (w : World) (c : call) :
  call_shell c = true ->
  advances w (mkWorld (stderr w) (calls w ++ [c]) (log w) (stdout w) (environ w) (sleeps w)).
Proof.
  intros Hc. unfold advances. cbn [calls log stdout environ sleeps].
  repeat split; try (solve [exists []; rewrite ?app_nil_r; auto]); auto.
  exists [c]. cbn [forallb]. rewrite Hc. auto.
Qed.

Lemma advances_env (w : World) :
  advances w (mkWorld (stderr w) (calls w) (log w) (stdout w)
                (noninteractive_frontend :: environ w) (sleeps w)).
Proof.
  unfold advances. cbn [calls log stdout environ sleeps].
  repeat split; try (solve [exists []; rewrite ?app_nil_r; auto]); auto.
  exists [noninteractive_frontend]. auto.
Qed.

Lemma advances_sleep (w : World) :
  advances w (mkWorld (stderr w) (calls w) (log w) (stdout w) (environ w) (S (sleeps w))).
Proof.
  unfold advances. cbn [calls log stdout environ sleeps].
  repeat split; try (solve [exists []; rewrite ?app_nil_r; auto]); auto.
Qed.

Lemma advances_err (w : World) (s : pystr) :
  advances w (mkWorld (stderr w ++ [s]) (calls w) (log w) (stdout w) (environ w)
                (sleeps w)).
Proof.
  unfold advances. cbn [calls log stdout environ sleeps].
  repeat split; try (solve [exists []; rewrite ?app_nil_r; auto]); auto.
Qed.

(** ** Rules for [holds] *)

Lemma holds_ret {A} (a : A) (Q : A -> Prop) (E : exn -> Prop) :
  Q a -> holds (ret a) Q E.
Proof. intros Ha w. split; [apply advances_refl | exact Ha]. Qed.

Lemma holds_raise {A} (e : exn) (Q : A -> Prop) (E : exn -> Prop) :
  E e -> holds (raise e) Q E.
Proof. intros He w. split; [apply advances_refl | exact He]. Qed.

Lemma holds_bind {A B} (m : M A) (k : A -> M B) (P : A -> Prop) (Q : B -> Prop)
    (E : exn -> Prop) :
  holds m P E -> (forall a, P a -> holds (k a) Q E) -> holds (bind m k) Q E.
Proof.
  intros Hm Hk w. unfold bind. destruct (Hm w) as [Hadv Hres].
  destruct (m w) as [[a|e|] w1]; cbn [fst snd] in *.
  - destruct (Hk a Hres w1) as [Hadv2 Hres2].
    split; [eapply advances_trans; eauto | exact Hres2].
  - auto.
  - auto.
Qed.

Lemma holds_try {A} (m : M A) (handler : exn -> option (M A)) (Q : A -> Prop)
    (E' E : exn -> Prop) :
  holds m Q E' ->
  (forall e, E' e ->
             match handler e with
             | Some k => holds k Q E
             | None => E e
             end) ->
  holds (try_except m handler) Q E.
Proof.
  intros Hm Hh w. unfold try_except. destruct (Hm w) as [Hadv Hres].
  destruct (m w) as [[a|e|] w1]; cbn [fst snd] in *; auto.
  specialize (Hh e Hres). destruct (handler e) as [k|]; cbn [fst snd]; auto.
  destruct (Hh w1) as [Hadv2 Hres2].
  split; [eapply advances_trans; eauto | exact Hres2].
Qed.

Lemma holds_for_each {A} (xs : list A) (body : A -> M unit) (E : exn -> Prop) :
  (forall x, holds (body x) (fun _ => True) E) ->
  holds (for_each xs body) (fun _ => True) E.
Proof.
  intros Hb. induction xs as [|x rest IH]; simpl.
  - apply holds_ret. exact I.
  - eapply holds_bind; [apply Hb | intros ? _; exact IH].
Qed.

Lemma holds_logger (l : level) (msg : pystr) (E : exn -> Prop) :
  known_record (l, msg) = true -> holds (logger l msg) (fun _ => True) E.
Proof. intros Hk w. split; [apply advances_log; exact Hk | exact I]. Qed.

Lemma holds_print (s : pystr) (E : exn -> Prop) :
  holds (print s) (fun _ => True) E.
Proof. intros w. split; [apply advances_out | exact I]. Qed.

Lemma holds_os_environ_set (E : exn -> Prop) :
  holds (os_environ_set (lit "DEBIAN_FRONTEND") (lit "noninteractive"))
    (fun _ => True) E.
Proof. intros w. split; [apply advances_env | exact I]. Qed.

Section HoldsOnHost.

Variable h : Host.

Lemma holds_run_command (command : pystr) (check_result : bool) :
  holds (run_command h command true check_result) (fun _ => True)
    (eq KeyboardInterrupt).
Proof.
  intros w. rewrite run_command_eq. cbv zeta.
  assert (Hcall : advances w (mkWorld (stderr w) (calls w ++ [Call command true check_result])
                                (log w) (stdout w) (environ w) (sleeps w)))
    by (apply advances_call; reflexivity).
  assert (Hlog : forall r, known_record r = true ->
            advances w (mkWorld (stderr w) (calls w ++ [Call command true check_result])
                          (log w ++ [r]) (stdout w) (environ w) (sleeps w))).
  { intros r Hr. eapply advances_trans; [exact Hcall|].
    apply (advances_log (mkWorld (stderr w) (calls w ++ [Call command true check_result])
                           (log w) (stdout w) (environ w) (sleeps w)) r Hr). }
  destruct (spawn h (List.length (calls w)) _) as [rc err|msg|rc msg|].
  - destruct (check_result && negb (rc =? 0)%Z); cbn [fst snd].
    + split; [apply Hlog; vm_compute; reflexivity | exact I].
    + rewrite app_nil_r. auto.
  - cbn [fst snd]. split; [apply Hlog; vm_compute; reflexivity | exact I].
  - cbn [fst snd]. split; [apply Hlog; vm_compute; reflexivity | exact I].
  - cbn [fst snd]. rewrite app_nil_r. auto.
Qed.

Lemma holds_idle_loop (fuel : nat) :
  holds (idle_loop h fuel) (fun _ => True) (eq KeyboardInterrupt).
Proof.
  induction fuel as [|n IH]; simpl.
  - intros w. split; [apply advances_refl | exact I].
  - eapply holds_bind with (P := fun _ => True); [|intros ? _; exact IH].
    intros w. unfold time_sleep.
    destruct (sleep_interrupted h (sleeps w)); cbn [fst snd];
      (split; [apply advances_sleep | auto]).
Qed.

End HoldsOnHost.

(** ** Every function of the script only advances *)

Lemma holds_weaken {A} (m : M A) (Q Q' : A -> Prop) (E E' : exn -> Prop) :
  holds m Q E -> (forall a, Q a -> Q' a) -> (forall e, E e -> E' e) ->
  holds m Q' E'.
Proof.
  intros Hm HQ HE w. destruct (Hm w) as [Hadv Hres]. split; [exact Hadv|].
  destruct (fst (m w)); auto.
Qed.

Ltac known := vm_compute; reflexivity.

Ltac hstep :=
  first
    [ apply holds_logger; known
    | apply holds_run_command
    | apply holds_print
    | apply holds_os_environ_set
    | apply holds_ret; first [exact I | reflexivity]
    | apply holds_for_each; intros ?
    | eapply holds_bind; [ | intros ? ? ] ].

Ltac hchain := repeat hstep.

Section HoldsOnScript.

Variable h : Host.
Variable g : Globals.

Lemma holds_validate_inputs (E : exn -> Prop) :
  holds (validate_inputs g) (fun _ => True) E.
Proof.
  unfold validate_inputs, logger_error.
  destruct (is_empty (CRD_SSH_Code g) || is_empty (strip (CRD_SSH_Code g)));
    [hchain|].
  destruct (List.length (str_int (Pin g)) <? 6)%nat; hchain.
Qed.

Lemma holds_update_system :
  holds (update_system h) (fun _ => True) (eq KeyboardInterrupt).
Proof. unfold update_system, logger_info. hchain. Qed.

Lemma holds_setup_user (user : pystr) :
  holds (setup_user h g user) (fun _ => True) (eq KeyboardInterrupt).
Proof. unfold setup_user, logger_info. hchain. Qed.

Lemma holds_install_crd : holds (install_crd h) (eq true) (eq KeyboardInterrupt).
Proof.
  unfold install_crd, logger_info, logger_warning.
  eapply holds_bind; [hstep | intros ? _].
  eapply holds_bind with (P := fun _ => True); [ | intros ? _; hchain ].
  apply holds_for_each. intros cmd.
  eapply holds_bind; [apply holds_run_command | intros ok _].
  destruct ok; cbn [negb]; hchain.
Qed.

Lemma holds_install_desktop_environment :
  holds (install_desktop_environment h) (eq true) (eq KeyboardInterrupt).
Proof. unfold install_desktop_environment, logger_info. hchain. Qed.

Lemma holds_install_google_chrome :
  holds (install_google_chrome h) (fun _ => True) (eq KeyboardInterrupt).
Proof. unfold install_google_chrome, logger_info. hchain. Qed.

Lemma holds_install_python :
  holds (install_python h) (fun _ => True) (eq KeyboardInterrupt).
Proof. unfold install_python, logger_info. hchain. Qed.

Lemma holds_install_selenium_webdriver :
  holds (install_selenium_webdriver h) (fun _ => True) (eq KeyboardInterrupt).
Proof. unfold install_selenium_webdriver, logger_info. hchain. Qed.

Lemma holds_install_qbittorrent :
  holds (install_qbittorrent h) (fun _ => True) (eq KeyboardInterrupt).
Proof. unfold install_qbittorrent, logger_info. hchain. Qed.

Lemma holds_change_wallpaper :
  holds (change_wallpaper h) (fun _ => True) (eq KeyboardInterrupt).
Proof. unfold change_wallpaper, logger_info. cbv zeta. hchain. Qed.

Lemma holds_finish (fuel : nat) (user : pystr) :
  holds (finish h g fuel user) (fun _ => True) (eq KeyboardInterrupt).
Proof.
  unfold finish, logger_info. cbv zeta.
  do 14 (eapply holds_bind; [hstep | intros ? _]).
  eapply holds_try; [apply holds_idle_loop|].
  intros e <-. hchain.
Qed.

Lemma holds_CRDSetup (fuel : nat) (user : pystr) :
  holds (CRDSetup h g fuel user) (fun _ => True) (eq KeyboardInterrupt).
Proof.
  unfold CRDSetup, logger_info, logger_error.
  eapply holds_bind; [hstep | intros ? _].
  eapply holds_bind; [apply holds_update_system | intros ? _].
  eapply holds_bind; [apply holds_setup_user | intros ? _].
  eapply holds_bind; [apply holds_install_crd | intros crd_ok <-].
  cbn [negb].
  eapply holds_bind; [apply holds_install_desktop_environment | intros desktop_ok <-].
  cbn [negb].
  eapply holds_bind; [apply holds_install_google_chrome | intros ? _].
  eapply holds_bind; [apply holds_install_python | intros ? _].
  eapply holds_bind; [apply holds_install_selenium_webdriver | intros ? _].
  eapply holds_bind; [apply holds_install_qbittorrent | intros ? _].
  eapply holds_bind; [apply holds_change_wallpaper | intros ? _].
  apply holds_finish.
Qed.

Lemma holds_main (fuel : nat) :
  holds (main h g fuel) (fun _ => True) (eq (SystemExit 1)).
Proof.
  unfold main, logger_info, logger_error, os_geteuid, sys_exit.
  eapply holds_try
    with (E' := fun e => e = KeyboardInterrupt \/ e = SystemExit 1).
  - eapply holds_bind with (P := fun _ => True);
      [apply holds_ret; exact I | intros uid _].
    eapply holds_bind with (P := fun _ => True).
    + destruct (uid =? 0)%Z; cbn [negb].
      * apply holds_ret. exact I.
      * eapply holds_bind; [hstep | intros ? _]. apply holds_raise. auto.
    + intros ? _. eapply holds_weaken; [apply holds_CRDSetup | auto | ].
      intros e <-. auto.
  - intros e [-> | ->]; cbn.
    + eapply holds_bind; [hstep | intros ? _]. apply holds_raise. reflexivity.
    + reflexivity.
Qed.

End HoldsOnScript.

Lemma holds_script_with (h : Host) (user pass : pystr) (pin : Z) (fuel : nat) :
  holds (script_with h user pass pin fuel) (fun _ => True)
    (fun e => e = SystemExit 1 \/ e = Exception EOFError).
Proof.
  unfold script_with, sys_exit.
  eapply holds_bind with (P := fun _ => True).
  - eapply holds_try
      with (E' := fun e => e = KeyboardInterrupt \/ e = Exception EOFError).
    + eapply holds_bind with (P := fun _ => True); [|intros; apply holds_ret; exact I].
      unfold input. eapply holds_bind with (P := fun _ => True).
      * destruct (on_terminal h); intros w;
          (split; [first [apply advances_err | apply advances_out] | exact I]).
      * intros ? _. destruct (stdin_line h);
          [apply holds_ret; exact I | apply holds_raise; auto | apply holds_raise; auto].
    + intros e [-> | ->]; cbn.
      * eapply holds_bind; [apply holds_print | intros ? _].
        apply holds_raise. auto.
      * auto.
  - intros code _.
    eapply holds_bind; [apply holds_validate_inputs | intros valid _].
    eapply holds_bind with (P := fun _ => True).
    + destruct valid; cbn [negb]; [apply holds_ret; exact I | apply holds_raise; auto].
    + intros ? _. eapply holds_weaken; [apply holds_main | auto | ].
      intros e <-. auto.
Qed.

Lemma run_with_advances (h : Host) (user pass : pystr) (pin : Z) (fuel : nat) :
  advances init_world (snd (run_with h user pass pin fuel)).
Proof.
  unfold run_with, python.
  destruct (holds_script_with h user pass pin fuel init_world) as [Hadv _].
  destruct (script_with h user pass pin fuel init_world) as [r w]. exact Hadv.
Qed.

Lemma run_with_log_known (h : Host) (user pass : pystr) (pin : Z) (fuel : nat) :
  forallb known_record (log (snd (run_with h user pass pin fuel))) = true.
Proof.
  destruct (run_with_advances h user pass pin fuel) as ((l & E & K) & _).
  rewrite E. exact K.
Qed.

(** ** What a run logs *)

(** X1.  Every record a run logs is one of the 26 messages of
    [log_templates], at the level given there: a fixed text, or a fixed
    text followed by a command, a user name or an error text. *)
Theorem log_vocabulary (h : Host) (user pass : pystr) (pin : Z) (fuel : nat)
    (r : level * pystr) :
  In r (log (snd (run_with h user pass pin fuel))) ->
  exists l p more,
    In (l, p, more) log_templates
    /\ fst r = l
    /\ if more then exists rest, snd r = p ++ rest else snd r = p.
Proof.
  intros Hin.
  pose proof (run_with_log_known h user pass pin fuel) as Hk.
  rewrite forallb_forall in Hk. specialize (Hk r Hin).
  unfold known_record in Hk. apply existsb_exists in Hk as ([[l p] more] & Ht & Hm).
  exists l, p, more. split; [exact Ht|].
  unfold matches_template in Hm. apply andb_true_iff in Hm as [Hl Hp].
  split.
  - destruct l, (fst r); try discriminate; reflexivity.
  - destruct more.
    + clear - Hp. revert Hp. generalize (snd r) as s.
      induction p as [|a p IH]; intros s Hp; simpl in *.
      * exists s. reflexivity.
      * destruct s as [|b s]; [discriminate|].
        apply andb_true_iff in Hp as [Hab Hp]. apply N.eqb_eq in Hab. subst b.
        destruct (IH s Hp) as (rest & ->). exists rest. reflexivity.
    + clear - Hp. revert Hp. generalize (snd r) as s.
      induction p as [|a p IH]; intros s Hp; destruct s as [|b s];
        simpl in *; try discriminate; [reflexivity|].
      apply andb_true_iff in Hp as [Hab Hp]. apply N.eqb_eq in Hab. subst b.
      f_equal. apply IH. exact Hp.
Qed.

Lemma log_vocabulary_witness :
  exists l p more,
    In (l, p, more) log_templates
    /\ fst (WARNING, lit "Command may have failed: "
                     ++ hd [] install_crd_commands) = l
    /\ if more
       then exists rest,
           snd (WARNING, lit "Command may have failed: "
                         ++ hd [] install_crd_commands) = p ++ rest
       else snd (WARNING, lit "Command may have failed: "
                          ++ hd [] install_crd_commands) = p.
Proof.
  apply (@log_vocabulary broken_install_host (lit "user") (lit "root") 123456 1).
  vm_compute. do 5 right. left. reflexivity.
Defined.

(** X2.  The messages of the branches that cannot be reached are never
    logged, whatever the host does: neither of the two "Failed to install"
    errors of [__init__], the "An unexpected error occurred" error of
    [main], nor the "Error: <stderr>" record of [run_command]. *)
Theorem dead_messages_never_logged (h : Host) (user pass : pystr) (pin : Z)
    (fuel : nat) :
  let l := log (snd (run_with h user pass pin fuel)) in
  ~ In (ERROR, lit "Failed to install Chrome Remote Desktop") l
  /\ ~ In (ERROR, lit "Failed to install desktop environment") l
  /\ (forall text, ~ In (ERROR, lit "An unexpected error occurred: " ++ text) l)
  /\ (forall text, ~ In (ERROR, lit "Error: " ++ text) l).
Proof.
  intros l. subst l.
  pose proof (run_with_log_known h user pass pin fuel) as Hk.
  rewrite forallb_forall in Hk.
  split; [|split; [|split]].
  - intros Hin. apply Hk in Hin. vm_compute in Hin. discriminate Hin.
  - intros Hin. apply Hk in Hin. vm_compute in Hin. discriminate Hin.
  - intros text Hin. apply Hk in Hin. vm_compute in Hin. discriminate Hin.
  - intros text Hin. apply Hk in Hin. vm_compute in Hin. discriminate Hin.
Qed.

(** X3.  The only thing a run ever puts into the process environment is
    [DEBIAN_FRONTEND=noninteractive]. *)
Theorem environment_only_frontend (h : Host) (user pass : pystr) (pin : Z)
    (fuel : nat) :
  Forall (eq noninteractive_frontend)
    (environ (snd (run_with h user pass pin fuel))).
Proof.
  destruct (run_with_advances h user pass pin fuel) as (_ & (l & E & F) & _).
  rewrite E. cbn [environ init_world]. rewrite app_nil_r. exact F.
Qed.

(** ** What a run executes and prints *)

Lemma executed_prefix (h : Host) (cs : list call) :
  forall n, exists rest, cs = executed h n cs ++ rest.
Proof.
  induction cs as [|c r IH]; intros n; simpl.
  - exists []. reflexivity.
  - destruct (is_interrupted (spawn h n c)).
    + exists r. reflexivity.
    + destruct (IH (S n)) as (rest & E). exists rest. simpl. congruence.
Qed.

Lemma pipeline_calls_length (g : Globals) (user : pystr) :
  List.length (pipeline_calls g user) = 28%nat.
Proof. reflexivity. Qed.

(** X4.  Whatever the host does, the commands a run executes are an
    initial part of the fixed list of 28 commands, in the order of the
    source; each goes through the shell. *)
Theorem calls_are_a_prefix (h : Host) (user pass : pystr) (pin : Z) (fuel : nat) :
  let made := calls (snd (run_with h user pass pin fuel)) in
  (exists rest, pipeline_calls (globals_of h user pass pin) user = made ++ rest)
  /\ (List.length made <= 28)%nat
  /\ forallb call_shell made = true.
Proof.
  intros made. subst made.
  assert (Hpre : exists rest,
             pipeline_calls (globals_of h user pass pin) user
             = calls (snd (run_with h user pass pin fuel)) ++ rest).
  { destruct (run_with_spec h user pass pin fuel) as (o & w & E & H).
    rewrite E. cbn [snd]. destruct (refused h pin).
    - destruct H as [_ ->]. eexists. reflexivity.
    - destruct H as [-> _]. apply executed_prefix. }
  split; [exact Hpre|]. split.
  - destruct Hpre as (rest & E).
    pose proof (pipeline_calls_length (globals_of h user pass pin) user) as Hlen.
    rewrite E, length_app in Hlen. lia.
  - destruct (run_with_advances h user pass pin fuel) as (_ & _ & (l & E & F) & _).
    rewrite E. exact F.
Qed.

Lemma run_with_refused_stdout (h : Host) (user pass : pystr) (pin : Z) (fuel : nat) :
  refused h pin = true ->
  stdout (snd (run_with h user pass pin fuel))
  = prompt_on_stdout h ++ match stdin_line h with
                          | InputInterrupt => [cancelled]
                          | _ => []
                          end.
Proof.
  unfold run_with, python, script_with, refused, prompt_on_stdout.
  unfold bind at 1. unfold try_except at 1. unfold bind at 1.
  unfold input, bind at 1, write, write_err.
  destruct (on_terminal h);
    (destruct (stdin_line h) as [s| |]; cbn [raise ret fst snd]; intros Hr;
     [ | reflexivity | reflexivity ];
     unfold bind at 1; rewrite validate_inputs_eq; cbn [CRD_SSH_Code Pin];
     destruct (blank s) eqn:Hb;
     [ rewrite (strip_blank s Hb); reflexivity
     | destruct (strip_not_blank s Hb) as [H1 H2]; rewrite H1, H2;
       cbn [orb] in *; destruct (List.length (str_int pin) <? 6)%nat;
       [ reflexivity
       | cbn [negb orb] in *; unfold bind at 1; cbn [ret];
         apply negb_true_iff, Z.eqb_neq in Hr;
         rewrite (main_not_root _ _ fuel _ Hr); reflexivity ] ]).
Qed.

(** X5.  What a run writes to standard output: the prompt first, unless
    the script runs on a terminal (there the prompt is shown on standard
    error); after Ctrl+C at the prompt the line "Operation cancelled by
    user"; the summary with the PIN, the user name and the password only
    when every command of the setup has run, followed by "Exiting..." once
    Ctrl+C ends the wait; nothing else in any other run.  So whenever the
    password line is on standard output, all 28 commands have been
    executed. *)
Theorem stdout_of_a_run (h : Host) (user pass : pystr) (pin : Z) (fuel : nat) :
  let g := globals_of h user pass pin in
  let w := snd (run_with h user pass pin fuel) in
  stdout w
  = prompt_on_stdout h
    ++ match stdin_line h with
       | InputInterrupt => [cancelled]
       | InputEOF => []
       | InputLine _ =>
           if refused h pin || interrupted_in h 0 (pipeline_calls g user) then []
           else summary g ++ (if woken h 0 fuel then [farewell] else [])
       end
  /\ (In ((lit "Password: " ++ pass) ++ NL) (stdout w) ->
      calls w = pipeline_calls g user).
Proof.
  intros g w. subst w.
  assert (Hout : stdout (snd (run_with h user pass pin fuel))
    = prompt_on_stdout h
      ++ match stdin_line h with
         | InputInterrupt => [cancelled]
         | InputEOF => []
         | InputLine _ =>
             if refused h pin || interrupted_in h 0 (pipeline_calls g user) then []
             else summary g ++ (if woken h 0 fuel then [farewell] else [])
         end).
  { destruct (refused h pin) eqn:Hr.
    - rewrite (run_with_refused_stdout h user pass pin fuel Hr).
      destruct (stdin_line h); reflexivity.
    - pose proof (proj1 (refused_false_iff h pin) Hr) as ((s & Hs & _) & _).
      rewrite Hs. cbn [orb].
      destruct (interrupted_in h 0 (pipeline_calls g user)) eqn:Hi.
      + rewrite app_nil_r. apply (@run_with_cut h user pass pin fuel Hr Hi).
      + apply (@run_with_through h user pass pin fuel Hr Hi). }
  split; [exact Hout|].
  rewrite Hout. intros Hin.
  assert (Hgo : refused h pin = false
                /\ interrupted_in h 0 (pipeline_calls g user) = false).
  { apply in_app_or in Hin. destruct Hin as [Hin|Hin].
    - unfold prompt_on_stdout in Hin. destruct (on_terminal h); [destruct Hin|].
      destruct Hin as [Hin|[]]. vm_compute in Hin. discriminate Hin.
    - destruct (stdin_line h).
      + destruct (refused h pin); [destruct Hin|].
        destruct (interrupted_in h 0 (pipeline_calls g user)); [destruct Hin|].
        auto.
      + destruct Hin as [Hin|[]]. vm_compute in Hin. discriminate Hin.
      + destruct Hin. }
  destruct Hgo as [Hr Hi].
  apply (@run_with_through h user pass pin fuel Hr Hi).
Qed.

Lemma stdout_of_a_run_witness :
  calls (snd (run_with (calm_host (InputLine (lit "crd-code-abc")) 0)
                (lit "user") (lit "root") 123456 1))
  = pipeline_calls
      (globals_of (calm_host (InputLine (lit "crd-code-abc")) 0)
         (lit "user") (lit "root") 123456)
      (lit "user").
Proof.
  apply (proj2 (@stdout_of_a_run (calm_host (InputLine (lit "crd-code-abc")) 0)
                  (lit "user") (lit "root") 123456 1)).
  vm_compute. do 5 right. left. reflexivity.
Defined.

(** ** The token and its validation *)

Lemma is_empty_strip (s : pystr) : is_empty (strip s) = blank s.
Proof.
  destruct (blank s) eqn:Hb.
  - rewrite (strip_blank s Hb). reflexivity.
  - apply (strip_not_blank s Hb).
Qed.

Lemma token_test (s : pystr) :
  is_empty s || is_empty (strip s) = blank s.
Proof.
  rewrite is_empty_strip. destruct s; reflexivity.
Qed.

(** X6.  [validate_inputs] accepts exactly a token with a character that is
    not white space together with a PIN of at least 6 characters; the token
    is tested first, so a blank token logs the token error alone, also when
    the PIN is short as well; a rejection logs one ERROR record, and in no
    case is anything else changed. *)
Theorem validate_inputs_decides (g : Globals) (w : World) :
  let r := validate_inputs g w in
  (fst r = Return true <->
     (exists c, In c (CRD_SSH_Code g) /\ py_isspace c = false)
     /\ (6 <= List.length (str_int (Pin g)))%nat)
  /\ (fst r = Return true \/ fst r = Return false)
  /\ (blank (CRD_SSH_Code g) = true ->
      log (snd r)
      = log w ++ [(ERROR, lit "Please enter a valid Chrome Remote Desktop SSH code")])
  /\ (blank (CRD_SSH_Code g) = false ->
      (List.length (str_int (Pin g)) < 6)%nat ->
      log (snd r) = log w ++ [(ERROR, lit "PIN must be at least 6 digits")])
  /\ (fst r = Return true -> snd r = w)
  /\ calls (snd r) = calls w /\ stdout (snd r) = stdout w
  /\ environ (snd r) = environ w /\ sleeps (snd r) = sleeps w.
Proof.
  intros r. subst r. rewrite validate_inputs_eq, token_test.
  destruct (blank (CRD_SSH_Code g)) eqn:Hb.
  - cbn [fst snd log calls stdout environ sleeps].
    repeat split; try discriminate; auto.
    intros [(c & Hin & Hc) _]. exfalso.
    unfold blank in Hb. rewrite forallb_forall in Hb.
    rewrite (Hb c Hin) in Hc. discriminate.
  - destruct (not_blank_inv _ Hb) as (c & Hin & Hc).
    destruct (List.length (str_int (Pin g)) <? 6)%nat eqn:Hp;
      cbn [fst snd log calls stdout environ sleeps].
    + apply Nat.ltb_lt in Hp.
      repeat split; try discriminate; auto. intros [_ H]. lia.
    + apply Nat.ltb_ge in Hp.
      repeat split; try discriminate; eauto. intros _ H. lia.
Qed.

Lemma validate_inputs_decides_witness :
  log (snd (validate_inputs (mkGlobals (lit " ") (lit "user") (lit "root") 1)
              init_world))
  = log init_world
    ++ [(ERROR, lit "Please enter a valid Chrome Remote Desktop SSH code")].
Proof.
  apply (@validate_inputs_decides (mkGlobals (lit " ") (lit "user") (lit "root") 1)
           init_world).
  reflexivity.
Defined.

Lemma lstrip_head (s : pystr) (c : N) (t : pystr) :
  lstrip s = c :: t -> py_isspace c = false.
Proof.
  induction s as [|a r IH]; simpl; [discriminate|].
  destruct (py_isspace a) eqn:Ha; [exact IH|].
  intros E. inversion E. subst. exact Ha.
Qed.

Lemma lstrip_fixed (c : N) (t : pystr) :
  py_isspace c = false -> lstrip (c :: t) = c :: t.
Proof. intros Hc. simpl. rewrite Hc. reflexivity. Qed.

Lemma lstrip_suffix (s : pystr) : exists pre, s = pre ++ lstrip s.
Proof.
  induction s as [|a r IH]; simpl.
  - exists []. reflexivity.
  - destruct (py_isspace a).
    + destruct IH as (pre & E). exists (a :: pre). simpl. congruence.
    + exists []. reflexivity.
Qed.

Lemma rstrip_prefix (s : pystr) : exists suf, s = rstrip s ++ suf.
Proof.
  unfold rstrip. destruct (lstrip_suffix (rev s)) as (pre & E).
  exists (rev pre). rewrite <- rev_app_distr, <- E, rev_involutive. reflexivity.
Qed.

Lemma rstrip_last (s : pystr) (d : N) :
  rstrip s <> [] -> py_isspace (last (rstrip s) d) = false.
Proof.
  unfold rstrip. destruct (lstrip (rev s)) as [|c t] eqn:E; [intros H; now elim H|].
  intros _. simpl. rewrite last_last. exact (lstrip_head _ E).
Qed.

Lemma rstrip_fixed (s : pystr) (d : N) :
  s <> [] -> py_isspace (last s d) = false -> rstrip s = s.
Proof.
  intros Hne Hl. unfold rstrip.
  destruct (exists_last Hne) as (t & c & ->).
  rewrite last_last in Hl. rewrite rev_app_distr. simpl.
  rewrite Hl. simpl. rewrite rev_involutive. reflexivity.
Qed.

(** X7.  The token the script keeps is the typed line without the white
    space around it: its first and its last character are not white space,
    and stripping it again changes nothing, so the second token test of
    [validate_inputs] never decides anything the first has not. *)
Theorem token_is_stripped (h : Host) :
  strip (token h) = token h
  /\ (forall c rest, token h = c :: rest ->
        py_isspace c = false /\ py_isspace (last (token h) c) = false)
  /\ is_empty (strip (token h)) = is_empty (token h).
Proof.
  assert (Hs : forall s c rest, strip s = c :: rest ->
             py_isspace c = false /\ py_isspace (last (strip s) c) = false).
  { intros s c rest E. split.
    - unfold strip in E. destruct (rstrip_prefix (lstrip s)) as (suf & Hp).
      rewrite E in Hp. simpl in Hp. exact (lstrip_head _ Hp).
    - unfold strip. apply rstrip_last. unfold strip in E. rewrite E. discriminate. }
  assert (Hid : forall s, strip (strip s) = strip s).
  { intros s. destruct (strip s) as [|c rest] eqn:E; [reflexivity|].
    destruct (Hs s c rest E) as [Hc Hl]. rewrite E in Hl.
    unfold strip at 1. rewrite (@lstrip_fixed c rest Hc).
    apply rstrip_fixed with (d := c); [discriminate | exact Hl]. }
  unfold token. destruct (stdin_line h) as [s| |].
  - split; [apply Hid|]. split; [apply Hs|]. rewrite Hid. reflexivity.
  - repeat split; discriminate.
  - repeat split; discriminate.
Qed.

(** ** What [install_crd] reports *)

Lemma crd_loop_eq (h : Host) (cmds : list pystr) :
  forall w,
    interrupted_in h (List.length (calls w)) (map (sh false) cmds) = false ->
    for_each cmds
      (fun cmd =>
         ok <- run_command h cmd true false ;;
         if negb ok
         then logger_warning (lit "Command may have failed: " ++ cmd)
         else ret tt) w
    = (Return tt,
       mkWorld (stderr w) (calls w ++ map (sh false) cmds)
         (log w ++ crd_loop_records h (List.length (calls w)) cmds)
         (stdout w) (environ w) (sleeps w)).
Proof.
  unfold sh. induction cmds as [|cmd rest IH]; intros w Hi.
  - simpl. rewrite !app_nil_r. destruct w; reflexivity.
  - simpl in Hi. apply orb_false_iff in Hi as [Hc Hrest].
    cbn [for_each]. unfold bind at 1. unfold bind at 1.
    rewrite run_command_eq. cbv zeta. cbn [crd_loop_records map]. unfold sh.
    destruct (spawn h (List.length (calls w)) (Call cmd true false))
      as [rc err|msg|rc msg|]; [| | |discriminate Hc];
      cbn [andb negb raised_text].
    + unfold ret at 1. rewrite IH; cbn [stderr calls log stdout environ sleeps].
      * rewrite length_app, Nat.add_1_r, !app_nil_r, <- !app_assoc. reflexivity.
      * rewrite length_app, Nat.add_1_r. exact Hrest.
    + unfold logger_warning, logger. cbn [stderr calls log stdout environ sleeps].
      rewrite IH; cbn [stderr calls log stdout environ sleeps].
      * rewrite length_app, Nat.add_1_r, <- !app_assoc. reflexivity.
      * rewrite length_app, Nat.add_1_r. exact Hrest.
    + unfold logger_warning, logger. cbn [stderr calls log stdout environ sleeps].
      rewrite IH; cbn [stderr calls log stdout environ sleeps].
      * rewrite length_app, Nat.add_1_r, <- !app_assoc. reflexivity.
      * rewrite length_app, Nat.add_1_r. exact Hrest.
Qed.

Lemma crd_loop_records_warn (h : Host) (cmds : list pystr) :
  forall n i cmd msg,
    nth_error cmds i = Some cmd ->
    raised_text (spawn h (n + i) (sh false cmd)) = Some msg ->
    In (WARNING, lit "Command may have failed: " ++ cmd)
      (crd_loop_records h n cmds).
Proof.
  induction cmds as [|c rest IH]; intros n i cmd msg Hn Hraised.
  - destruct i; discriminate.
  - cbn [crd_loop_records]. apply in_or_app. destruct i as [|i].
    + inversion Hn. subst c. rewrite Nat.add_0_r in Hraised.
      rewrite Hraised. left. right. left. reflexivity.
    + right. apply (IH (S n) i cmd msg Hn).
      replace (S n + i)%nat with (n + S i)%nat by lia. exact Hraised.
Qed.

Lemma install_crd_eq (h : Host) (w : World) :
  interrupted_in h (List.length (calls w)) install_crd_calls = false ->
  install_crd h w
  = (Return true,
     mkWorld (stderr w) (calls w ++ install_crd_calls)
       (log w
        ++ (INFO, lit "Installing Chrome Remote Desktop...")
           :: crd_loop_records h (List.length (calls w)) install_crd_commands
        ++ [(INFO, lit "Chrome Remote Desktop installation completed!")])
       (stdout w) (environ w) (sleeps w)).
Proof.
  intros Hi. unfold install_crd. unfold bind at 1.
  unfold logger_info at 1. unfold logger at 1. unfold bind at 1.
  rewrite crd_loop_eq; [|exact Hi].
  cbn [calls log stdout environ sleeps]. unfold bind, logger_info, logger, ret.
  cbn [calls log stdout environ sleeps]. unfold install_crd_calls.
  rewrite <- !app_assoc. reflexivity.
Qed.

(** X8.  [install_crd], when Ctrl+C does not cut it short, runs its three
    commands whatever their outcome and returns [True]; between its two
    INFO records it logs, for each command whose run raised an exception
    (no process could be started, or the captured output did not decode),
    the error of [run_command] and the warning "Command may have failed",
    and nothing for a command that ran to the end with output that
    decoded, also when it exited with a non-zero status: if the three
    commands all did, no warning and no error is logged. *)
Theorem install_crd_warns_on_exceptions_only (h : Host) (w : World) :
  interrupted_in h (List.length (calls w)) install_crd_calls = false ->
  let r := install_crd h w in
  fst r = Return true
  /\ calls (snd r) = calls w ++ install_crd_calls
  /\ log (snd r)
     = log w
       ++ (INFO, lit "Installing Chrome Remote Desktop...")
          :: crd_loop_records h (List.length (calls w)) install_crd_commands
       ++ [(INFO, lit "Chrome Remote Desktop installation completed!")]
  /\ (forall i cmd msg,
         nth_error install_crd_commands i = Some cmd ->
         raised_text (spawn h (List.length (calls w) + i) (sh false cmd))
         = Some msg ->
         In (WARNING, lit "Command may have failed: " ++ cmd) (log (snd r)))
  /\ ((forall i cmd,
          nth_error install_crd_commands i = Some cmd ->
          exists rc err,
            spawn h (List.length (calls w) + i) (sh false cmd) = Exited rc err) ->
      log (snd r)
      = log w
        ++ [ (INFO, lit "Installing Chrome Remote Desktop...");
             (INFO, lit "Chrome Remote Desktop installation completed!") ]).
Proof.
  intros Hi r. subst r. rewrite (install_crd_eq h w Hi).
  cbn [fst snd calls log]. split; [reflexivity|]. split; [reflexivity|].
  split; [reflexivity|]. split.
  - intros i cmd msg Hn Hraised. apply in_or_app. right. right.
    apply in_or_app. left.
    exact (crd_loop_records_warn h _ _ i Hn Hraised).
  - intros Hall.
    destruct (Hall 0%nat _ eq_refl) as (rc0 & err0 & E0).
    destruct (Hall 1%nat _ eq_refl) as (rc1 & err1 & E1).
    destruct (Hall 2%nat _ eq_refl) as (rc2 & err2 & E2).
    rewrite Nat.add_0_r in E0. rewrite Nat.add_1_r in E1.
    replace (List.length (calls w) + 2)%nat with (S (S (List.length (calls w))))
      in E2 by lia.
    unfold install_crd_commands. cbn [crd_loop_records].
    rewrite E0, E1, E2. reflexivity.
Qed.

Lemma install_crd_warns_on_exceptions_only_witness :
  let w := mkWorld [] (repeat (sh true []) 5) [] [] [] 0 in
  In (WARNING, lit "Command may have failed: " ++ hd [] install_crd_commands)
    (log (snd (install_crd broken_install_host w))).
Proof.
  cbv zeta.
  destruct (@install_crd_warns_on_exceptions_only broken_install_host
              (mkWorld [] (repeat (sh true []) 5) [] [] [] 0) eq_refl)
    as (_ & _ & _ & Hwarn & _).
  apply (Hwarn 0%nat (hd [] install_crd_commands)
           (lit "[Errno 12] Cannot allocate memory")); reflexivity.
Defined.

(** ** The captured stderr *)

Lemma bind_ext {A B} (m1 m2 : M A) (k1 k2 : A -> M B) :
  (forall w, m1 w = m2 w) -> (forall a w, k1 a w = k2 a w) ->
  forall w, bind m1 k1 w = bind m2 k2 w.
Proof.
  intros Hm Hk w. unfold bind. rewrite Hm.
  destruct (m2 w) as [[a|e|] w1]; auto.
Qed.

Lemma try_except_ext {A} (m1 m2 : M A) (h1 h2 : exn -> option (M A)) :
  (forall w, m1 w = m2 w) ->
  (forall e, match h1 e, h2 e with
             | Some k1, Some k2 => forall w, k1 w = k2 w
             | None, None => True
             | _, _ => False
             end) ->
  forall w, try_except m1 h1 w = try_except m2 h2 w.
Proof.
  intros Hm Hh w. unfold try_except. rewrite Hm.
  destruct (m2 w) as [[a|e|] w1]; auto.
  specialize (Hh e). destruct (h1 e), (h2 e); auto; contradiction.
Qed.

Lemma for_each_ext {A} (xs : list A) (b1 b2 : A -> M unit) :
  (forall x w, b1 x w = b2 x w) ->
  forall w, for_each xs b1 w = for_each xs b2 w.
Proof.
  intros Hb. induction xs as [|x rest IH]; intros w; simpl; [reflexivity|].
  apply bind_ext; auto.
Qed.

Ltac ext_chain :=
  repeat first
    [ apply bind_ext; [ | intros ? ]
    | apply for_each_ext; intros ?
    | solve [intros ?; reflexivity]
    | solve [auto] ].

Section Stderr.

Variable h : Host.

Lemma run_command_erase (command : pystr) (use_shell check_result : bool) :
  forall w,
    run_command (erase_stderr h) command use_shell check_result w
    = run_command h command use_shell check_result w.
Proof.
  intros w. rewrite !run_command_eq. cbv zeta. cbn [spawn erase_stderr cpe_text].
  destruct (spawn h (List.length (calls w)) _); reflexivity.
Qed.

Hint Resolve run_command_erase : core.

Lemma idle_loop_erase (fuel : nat) :
  forall w, idle_loop (erase_stderr h) fuel w = idle_loop h fuel w.
Proof.
  induction fuel as [|n IH]; intros w; simpl; [reflexivity|].
  apply bind_ext; [intros; reflexivity | intros _; exact IH].
Qed.

Variable g : Globals.

Lemma update_system_erase :
  forall w, update_system (erase_stderr h) w = update_system h w.
Proof. unfold update_system. ext_chain. Qed.

Lemma setup_user_erase (user : pystr) :
  forall w, setup_user (erase_stderr h) g user w = setup_user h g user w.
Proof. unfold setup_user. ext_chain. Qed.

Lemma install_crd_erase :
  forall w, install_crd (erase_stderr h) w = install_crd h w.
Proof. unfold install_crd. ext_chain. Qed.

Lemma install_desktop_environment_erase :
  forall w,
    install_desktop_environment (erase_stderr h) w
    = install_desktop_environment h w.
Proof. unfold install_desktop_environment. ext_chain. Qed.

Lemma install_google_chrome_erase :
  forall w, install_google_chrome (erase_stderr h) w = install_google_chrome h w.
Proof. unfold install_google_chrome. ext_chain. Qed.

Lemma install_python_erase :
  forall w, install_python (erase_stderr h) w = install_python h w.
Proof. unfold install_python. ext_chain. Qed.

Lemma install_selenium_webdriver_erase :
  forall w,
    install_selenium_webdriver (erase_stderr h) w
    = install_selenium_webdriver h w.
Proof. unfold install_selenium_webdriver. ext_chain. Qed.

Lemma install_qbittorrent_erase :
  forall w, install_qbittorrent (erase_stderr h) w = install_qbittorrent h w.
Proof. unfold install_qbittorrent. ext_chain. Qed.

Lemma change_wallpaper_erase :
  forall w, change_wallpaper (erase_stderr h) w = change_wallpaper h w.
Proof. unfold change_wallpaper. cbv zeta. ext_chain. Qed.

Lemma finish_erase (fuel : nat) (user : pystr) :
  forall w, finish (erase_stderr h) g fuel user w = finish h g fuel user w.
Proof.
  unfold finish. cbv zeta.
  do 14 (apply bind_ext; [solve [auto | intros; reflexivity] | intros _]).
  apply try_except_ext; [apply idle_loop_erase|].
  intros [| |]; cbn; auto.
Qed.

Lemma CRDSetup_erase (fuel : nat) (user : pystr) :
  forall w, CRDSetup (erase_stderr h) g fuel user w = CRDSetup h g fuel user w.
Proof.
  unfold CRDSetup.
  apply bind_ext; [intros; reflexivity | intros _].
  apply bind_ext; [apply update_system_erase | intros _].
  apply bind_ext; [apply setup_user_erase | intros _].
  apply bind_ext; [apply install_crd_erase | intros crd_ok].
  destruct crd_ok; cbn [negb]; [|intros; reflexivity].
  apply bind_ext; [apply install_desktop_environment_erase | intros desktop_ok].
  destruct desktop_ok; cbn [negb]; [|intros; reflexivity].
  apply bind_ext; [apply install_google_chrome_erase | intros _].
  apply bind_ext; [apply install_python_erase | intros _].
  apply bind_ext; [apply install_selenium_webdriver_erase | intros _].
  apply bind_ext; [apply install_qbittorrent_erase | intros _].
  apply bind_ext; [apply change_wallpaper_erase | intros _].
  apply finish_erase.
Qed.

Lemma main_erase (fuel : nat) :
  forall w, main (erase_stderr h) g fuel w = main h g fuel w.
Proof.
  unfold main. apply try_except_ext.
  - apply bind_ext; [intros; reflexivity | intros uid].
    apply bind_ext; [intros; reflexivity | intros _].
    apply CRDSetup_erase.
  - intros [| |]; cbn; auto.
Qed.

End Stderr.

(** X9.  The text of a captured stderr, once it has decoded, is never
    used: a run ends with the same exit code and leaves the same calls,
    log, standard output, standard error and environment when, for every
    child whose captured output decoded, the stderr text is replaced by the
    empty string.  (A child whose output does not decode is another
    outcome, [Garbled], which this leaves as it is.) *)
Theorem stderr_is_never_used (h : Host) (user pass : pystr) (pin : Z) (fuel : nat) :
  run_with (erase_stderr h) user pass pin fuel = run_with h user pass pin fuel.
Proof.
  assert (H : forall w, script_with (erase_stderr h) user pass pin fuel w
                        = script_with h user pass pin fuel w).
  { unfold script_with.
    apply bind_ext; [intros; reflexivity | intros code].
    apply bind_ext; [intros; reflexivity | intros valid].
    apply bind_ext; [intros; reflexivity | intros _].
    apply main_erase. }
  unfold run_with, python. rewrite H. reflexivity.
Qed.

(** ** What one call of [run_command] touches *)

(** X10.  Whatever the flags and the outcome, one invocation of
    [run_command] makes exactly one call of [subprocess.run], with the
    command and the two flags it was given; it writes nothing to standard
    output or, beside that record, to standard error, leaves the
    environment alone, does not sleep, and adds at most one record to the
    log, at level ERROR. *)
Theorem run_command_frame (h : Host) (command : pystr)
    (use_shell check_result : bool) (w : World) :
  let w' := snd (run_command h command use_shell check_result w) in
  calls w' = calls w ++ [Call command use_shell check_result]
  /\ stdout w' = stdout w
  /\ environ w' = environ w
  /\ sleeps w' = sleeps w
  /\ (log w' = log w \/ exists msg, log w' = log w ++ [(ERROR, msg)])
  /\ stderr w' = stderr w.
Proof.
  intros w'. subst w'. rewrite run_command_eq. cbv zeta.
  destruct (spawn h (List.length (calls w)) _) as [rc err|msg|rc msg|].
  - destruct (check_result && negb (rc =? 0)%Z);
      cbn [snd stderr calls log stdout environ sleeps]; rewrite ?app_nil_r;
      repeat split; eauto.
  - cbn [snd stderr calls log stdout environ sleeps]. repeat split; eauto.
  - cbn [snd stderr calls log stdout environ sleeps]. repeat split; eauto.
  - cbn [snd stderr calls log stdout environ sleeps]. rewrite ?app_nil_r.
    repeat split; eauto.
Qed.

Lemma token_is_stripped_witness :
  let h := calm_host (InputLine (lit "  crd-code-abc ")) 0 in
  py_isspace 99%N = false /\ py_isspace (last (token h) 99%N) = false.
Proof.
  apply (proj1 (proj2 (token_is_stripped
                         (calm_host (InputLine (lit "  crd-code-abc ")) 0)))
           99%N (tl (lit "crd-code-abc"))).
  vm_compute. reflexivity.
Defined.
